(** * Privacy-audit quiz bot: the session state machine of [pybot.py]

    A shallow embedding of the conversational core of the bot: the
    catalog held by [class Config], the [UserSession] objects, the global
    [sessions] dictionary and the handlers that drive one chat through
    the five questions to the final report.

    Modelling conventions.
    - The global [sessions : Dict[int, UserSession]] is a [gmap Z UserSession]
      threaded through a small state monad.  A [UserSession] object is only
      ever reachable through its entry in [sessions], so an in-place
      mutation of the object is a write of the entry under its chat id.
    - Every externally visible action ([bot.send_message],
      [bot.answer_callback_query], [time.sleep], [logger.info]) and every
      mutation of [sessions] is appended, in program order, to an effect
      trace.  Message texts are kept as structured values carrying the
      interpolated fields, not as rendered HTML.
    - Python exceptions ([KeyError], [IndexError], [ZeroDivisionError],
      [OverflowError], and the [ApiTelegramException] of a failed call
      into the transport) are outcomes of the monad; no handler catches
      any, and the store and the trace built so far survive a raise, as
      they do in Python.
    - [datetime.now()] is read from the inbound event: all readings taken
      while one event is handled return the same instant, counted in
      microseconds of local wall-clock time.
    - Python floats are IEEE-754 binary64 values, modelled with the
      standard library's [spec_float] (53-bit precision, round to nearest
      even).  Integer true division rounds the exact quotient once and
      raises [OverflowError] when the rounded quotient is not finite.
    - A call into the transport ([bot.send_message],
      [bot.answer_callback_query]) returns or raises as the environment
      of the update decides: the environment says how many calls return
      before one raises, if any does.  Whatever the library raises there
      is represented by [ApiTelegramException], the exception the program
      imports: no handler tells one exception from another.
    - Updates are handled one at a time; a handler runs to its end or to
      the first exception before the next update is taken. *)

From Stdlib Require Import ZArith Ascii String List.
From Stdlib Require Import Floats.SpecFloat.
From stdpp Require Import base option list gmap fin_maps strings.

Open Scope string_scope.
Open Scope list_scope.
Open Scope Z_scope.

(** ** Python values *)

Module Py.

(** *** Exceptions and outcomes *)

Inductive exn :=
| KeyError | IndexError | ZeroDivisionError | OverflowError
| ApiTelegramException.

Inductive outcome (A : Type) :=
| Ok (a : A)
| Raise (e : exn).
Arguments Ok {A} a.
Arguments Raise {A} e.

(** *** binary64 floats *)

Definition float := spec_float.
Definition prec : Z := 53.
Definition emax : Z := 1024.

(** [float(z)] for an integer [z]. *)
Definition float_of_int (z : Z) : float := binary_normalize prec emax z 0 false.

(** The literals [0.0] and [100.0]. *)
Definition f0_0 : float := S754_zero false.
Definition f100_0 : float := S754_finite false 7036874417766400 (-46).

Definition fmul (x y : float) : float := SFmul prec emax x y.

(** The exact quotient [a / b] of two integers, [b] not 0, rounded once
    to the nearest float, ties to even; a zero quotient takes the sign
    of [b]. *)
Definition quotient (a b : Z) : float :=
  match a with
  | 0 => S754_zero (b <? 0)
  | _ =>
      let '(q, e, l) := SFdiv_core_binary prec emax (Z.abs a) 0 (Z.abs b) 0 in
      binary_round_aux prec emax (xorb (a <? 0) (b <? 0)) q e l
  end.

(** The least magnitude that rounds beyond the largest float:
    2^1024 - 2^970, half way between the largest float and 2^1024. *)
Definition OVERFLOW_AT : Z := Eval vm_compute in (2 ^ 1024 - 2 ^ 970).

(** [a / b] on two [int]s: [ZeroDivisionError] for [b = 0],
    [OverflowError] when the quotient is too large for a float. *)
Definition int_truediv (a b : Z) : outcome float :=
  if decide (b = 0) then Raise ZeroDivisionError
  else if decide (OVERFLOW_AT * Z.abs b <= Z.abs a) then Raise OverflowError
  else Ok (quotient a b).

(** [x * n] for a float [x] and an [int] [n]. *)
Definition fmul_int (x : float) (n : Z) : float := fmul x (float_of_int n).

(** *** Sequences and dictionaries *)

(** [l[i]]: negative indices count from the end, anything outside the
    list raises [IndexError]. *)
Definition list_getitem {A} (l : list A) (i : Z) : outcome A :=
  let n := Z.of_nat (length l) in
  let j := if decide (i < 0) then i + n else i in
  if decide (j < 0) then Raise IndexError
  else match l !! Z.to_nat j with
       | Some x => Ok x
       | None => Raise IndexError
       end.

(** [d[k]]. *)
Definition dict_getitem `{Countable K} {V} (d : gmap K V) (k : K) : outcome V :=
  match d !! k with
  | Some v => Ok v
  | None => Raise KeyError
  end.

(** [d.get(k, default)]. *)
Definition dict_get `{Countable K} {V} (d : gmap K V) (k : K) (dflt : V) : V :=
  default dflt (d !! k).

(** [d.values()], as a list. *)
Definition dict_values `{Countable K} {V} (d : gmap K V) : list V :=
  (map_to_list d).*2.

(** [sum(...)] over integers and [len(...)]. *)
Definition sum (l : list Z) : Z := foldr Z.add 0 l.
Definition len {A} (l : list A) : Z := Z.of_nat (length l).

(** [s or dflt] for a string [s]. *)
Definition str_or (s dflt : string) : string :=
  if decide (s = "") then dflt else s.

End Py.
Import Py.

Definition nl : string := String "010"%char "".

(** ** [class Config] *)

Record Question := {
  q_id : string;
  q_text : string;
  q_risks : gmap string string;
  q_fix : string
}.

Record Level := {
  name : string;
  color : string;
  desc : string
}.

Module Config.

Definition VERSION : string := "2.0".
Definition AUTHOR : string := "Telegram Privacy Auditor".

Definition question_phone : Question :=
  {| q_id := "phone";
     q_text := "📱 Кто видит ваш номер телефона?";
     q_risks := list_to_map
       [("Все",
         "🔴 <b>ВЫСОКИЙ РИСК</b>" +:+ nl +:+ "• Номер могут использовать для спама и фишинга" +:+ nl +:+ "• Можно найти вас в социальных сетях" +:+ nl +:+ "• Возможна подмена SIM-карты (SIM-swap)");
        ("Мои контакты",
         "🟡 <b>СРЕДНИЙ РИСК</b>" +:+ nl +:+ "• Контакты могут случайно раскрыть номер" +:+ nl +:+ "• При утечке телефона контактов - номер доступен");
        ("Никто",
         "🟢 <b>НИЗКИЙ РИСК</b>" +:+ nl +:+ "• Максимальная защита номера" +:+ nl +:+ "• Рекомендуемая настройка")];
     q_fix := "Настройки → Конфиденциальность → Номер телефона" |}.

Definition question_last_seen : Question :=
  {| q_id := "last_seen";
     q_text := "⏰ Кто видит, когда вы были в сети?";
     q_risks := list_to_map
       [("Все",
         "🔴 <b>ВЫСОКИЙ РИСК</b>" +:+ nl +:+ "• Можно отследить ваш график активности" +:+ nl +:+ "• Злоумышленники знают когда вы онлайн" +:+ nl +:+ "• Упрощает социальную инженерию");
        ("Мои контакты",
         "🟡 <b>СРЕДНИЙ РИСК</b>" +:+ nl +:+ "• Контакты видят вашу активность" +:+ nl +:+ "• Могут определить когда вы спите/работаете");
        ("Никто",
         "🟢 <b>НИЗКИЙ РИСК</b>" +:+ nl +:+ "• Полная анонимность статуса" +:+ nl +:+ "• Рекомендуемая настройка")];
     q_fix := "Настройки → Конфиденциальность → Время последнего посещения" |}.

Definition question_profile_photo : Question :=
  {| q_id := "profile_photo";
     q_text := "🖼️ Кто видит вашу фотографию профиля?";
     q_risks := list_to_map
       [("Все",
         "🔴 <b>ВЫСОКИЙ РИСК</b>" +:+ nl +:+ "• Фото можно использовать для поиска по изображению" +:+ nl +:+ "• Возможность создания фейковых аккаунтов" +:+ nl +:+ "• Сбор биометрических данных");
        ("Мои контакты",
         "🟡 <b>СРЕДНИЙ РИСК</b>" +:+ nl +:+ "• Ограниченный круг видимости" +:+ nl +:+ "• Риск если телефон контакта скомпрометирован");
        ("Никто",
         "🟢 <b>НИЗКИЙ РИСК</b>" +:+ nl +:+ "• Максимальная приватность" +:+ nl +:+ "• Рекомендуемая настройка")];
     q_fix := "Настройки → Конфиденциальность → Фотография профиля" |}.

Definition question_groups : Question :=
  {| q_id := "groups";
     q_text := "👥 Кто может добавлять вас в группы?";
     q_risks := list_to_map
       [("Все",
         "🔴 <b>ВЫСОКИЙ РИСК</b>" +:+ nl +:+ "• Вас могут добавлять в спам-чаты" +:+ nl +:+ "• Мошеннические группы и фишинг" +:+ nl +:+ "• Потеря контроля над вступлением");
        ("Мои контакты",
         "🟡 <b>СРЕДНИЙ РИСК</b>" +:+ nl +:+ "• Только знакомые могут добавлять" +:+ nl +:+ "• Риск если контакт скомпрометирован");
        ("Никто",
         "🟢 <b>НИЗКИЙ РИСК</b>" +:+ nl +:+ "• Полный контроль над группами" +:+ nl +:+ "• Рекомендуемая настройка")];
     q_fix := "Настройки → Конфиденциальность → Группы и каналы" |}.

Definition question_forwarding : Question :=
  {| q_id := "forwarding";
     q_text := "🔗 Кто может создавать ссылки на ваш профиль?";
     q_risks := list_to_map
       [("Все",
         "🔴 <b>ВЫСОКИЙ РИСК</b>" +:+ nl +:+ "• Ваш профиль могут репостить где угодно" +:+ nl +:+ "• Упрощает сбор информации о вас" +:+ nl +:+ "• Спам через упоминания");
        ("Мои контакты",
         "🟡 <b>СРЕДНИЙ РИСК</b>" +:+ nl +:+ "• Ограниченный круг" +:+ nl +:+ "• Риск неконтролируемого распространения");
        ("Никто",
         "🟢 <b>НИЗКИЙ РИСК</b>" +:+ nl +:+ "• Максимальная защита от упоминаний" +:+ nl +:+ "• Рекомендуемая настройка")];
     q_fix := "Настройки → Конфиденциальность → Пересылка сообщений" |}.

Definition QUESTIONS : list Question :=
  [question_phone;
   question_last_seen;
   question_profile_photo;
   question_groups;
   question_forwarding].

Definition POINTS : gmap string Z :=
  list_to_map [("Все", 0); ("Мои контакты", 1); ("Никто", 2)].

Definition level_10 : Level :=
  {| name := "🎉 ИДЕАЛЬНО";
     color := "🟢";
     desc := "Вы хакер уровня паранойи! Идеальная защита." |}.
Definition level_9 : Level :=
  {| name := "✅ ОТЛИЧНО";
     color := "🟢";
     desc := "Почти идеально. Можно расслабиться." |}.
Definition level_8 : Level :=
  {| name := "👍 ХОРОШО";
     color := "🟢";
     desc := "Хорошая защита. Небольшие риски." |}.
Definition level_7 : Level :=
  {| name := "⚠️ НОРМАЛЬНО";
     color := "🟡";
     desc := "Средний уровень. Есть что улучшить." |}.
Definition level_6 : Level :=
  {| name := "⚠️ УДОВЛЕТВОРИТЕЛЬНО";
     color := "🟡";
     desc := "Приемлемо, но нужно работать." |}.
Definition level_5 : Level :=
  {| name := "🔴 ТРЕВОГА";
     color := "🔴";
     desc := "Низкая защита. Вы в зоне риска." |}.
Definition level_4 : Level :=
  {| name := "🔴 ОПАСНО";
     color := "🔴";
     desc := "Опасный уровень. Срочно меняйте настройки!" |}.
Definition level_3 : Level :=
  {| name := "🚨 КРИТИЧЕСКИ";
     color := "🔴";
     desc := "Критически низкая защита!" |}.
Definition level_2 : Level :=
  {| name := "💀 КАТАСТРОФА";
     color := "💀";
     desc := "Ваши данные полностью уязвимы!" |}.
Definition level_1 : Level :=
  {| name := "💀 АПОКАЛИПСИС";
     color := "💀";
     desc := "Немедленно настройте приватность!" |}.
Definition level_0 : Level :=
  {| name := "☢️ ЯДЕРНЫЙ УРОВЕНЬ";
     color := "☢️";
     desc := "Вы вообще не скрываетесь?!" |}.

Definition LEVELS : gmap Z Level :=
  list_to_map
    [(10, level_10);
     (9, level_9);
     (8, level_8);
     (7, level_7);
     (6, level_6);
     (5, level_5);
     (4, level_4);
     (3, level_3);
     (2, level_2);
     (1, level_1);
     (0, level_0)].

End Config.

(** ** Telegram values delivered by and handed to the transport *)

Record User := {
  tg_id : Z;
  tg_username : option string;
  tg_first_name : string
}.

(** A text message.  [command] is the command name the transport's
    command filter extracts from [text] (for instance [Some "start"] for
    the text [/start]), [None] for a text that is not a command. *)
Record Message := {
  chat_id : Z;
  from_user : User;
  text : string;
  command : option string
}.

Record CallbackQuery := {
  call_id : string;
  call_data : string;
  call_chat_id : Z
}.

Inductive Markup :=
| NoMarkup
| ReplyKeyboardMarkup (rows : list (list string))
| ReplyKeyboardRemove
| InlineKeyboardMarkup (buttons : list (string * string)).

(** ** Sessions *)

Record AnswerRecord := {
  question_id : string;
  answer : string;
  points : Z;
  timestamp : Z
}.

Record UserSession := {
  user_id : Z;
  answers : list AnswerRecord;
  current_question : Z;
  score : Z;
  start_time : Z;
  username : string;
  first_name : string
}.

Module Session.

(** [UserSession.__init__] *)
Definition init (user_id : Z) (now : Z) : UserSession :=
  {| user_id := user_id; answers := []; current_question := 0; score := 0;
     start_time := now; username := ""; first_name := "" |}.

(** [UserSession.add_answer]: the object after the call. *)
Definition add_answer (self : UserSession) (question_id answer : string)
    (points : Z) (now : Z) : UserSession :=
  {| user_id := user_id self;
     answers := answers self ++
       [{| question_id := question_id; answer := answer;
           points := points; timestamp := now |}];
     current_question := current_question self;
     score := score self + points;
     start_time := start_time self;
     username := username self;
     first_name := first_name self |}.

(** [UserSession.is_completed] *)
Definition is_completed (self : UserSession) : bool :=
  bool_decide (current_question self >= len Config.QUESTIONS).

(** Attribute writes: [self.username = v], [self.first_name = v] and
    [self.current_question += 1]. *)
Definition set_username (self : UserSession) (v : string) : UserSession :=
  {| user_id := user_id self; answers := answers self;
     current_question := current_question self; score := score self;
     start_time := start_time self; username := v;
     first_name := first_name self |}.

Definition set_first_name (self : UserSession) (v : string) : UserSession :=
  {| user_id := user_id self; answers := answers self;
     current_question := current_question self; score := score self;
     start_time := start_time self; username := username self;
     first_name := v |}.

Definition incr_current_question (self : UserSession) : UserSession :=
  {| user_id := user_id self; answers := answers self;
     current_question := current_question self + 1; score := score self;
     start_time := start_time self; username := username self;
     first_name := first_name self |}.

End Session.

(** ** Outbound content *)

Record Report := {
  r_level : Level;
  r_first_name : string;
  r_date : Z;
  r_minutes : Z;
  r_seconds : Z;
  r_score : Z;
  r_answers_count : gmap string Z;
  r_weak_points : list (Question * AnswerRecord);
  r_visual_bar : list bool
}.

Inductive Content :=
| WelcomeText (first_name version : string)
| RestartText
| StartText
| QuestionText (number total : Z) (question_text : string)
| CancelledText
| ExplanationText (answer risk_text fix_text : string)
| ReportText (r : Report)
| StatsText (today : Z) (average percentile : float)
| AdminOnlyText
| BotStatsText (version : string) (active today : Z) (average : float)
| VersionText (author version : string)
| UnknownText (response : string).

Inductive LogLine :=
| SessionStarted (user : Z)
| CheckFinished (chat : Z) (score : Z).

(** ** Effects and the handler monad *)

Inductive Effect :=
| SendMessage (chat : Z) (c : Content) (reply_markup : Markup)
| AnswerCallbackQuery (id : string)
| Sleep (seconds : Z)
| LogInfo (l : LogLine)
| SessionWrite (chat : Z) (s : UserSession)
| SessionPop (chat : Z).

(** What the transport does while one update is handled: [None] when
    every call returns, [Some n] when the first [n] calls return and the
    next one raises [ApiTelegramException]. *)
Definition Transport : Type := option nat.

(** The calls into the transport that a trace holds. *)
Definition is_call (e : Effect) : bool :=
  match e with
  | SendMessage _ _ _ | AnswerCallbackQuery _ => true
  | _ => false
  end.

Fixpoint calls (tr : list Effect) : nat :=
  match tr with
  | [] => 0%nat
  | e :: rest => if is_call e then S (calls rest) else calls rest
  end.

(** The transport left once [n] calls have returned. *)
Definition spend (n : nat) (tp : Transport) : Transport :=
  match tp with
  | None => None
  | Some k => Some (k - n)%nat
  end.

Definition Bot (A : Type) : Type :=
  Transport -> gmap Z UserSession ->
  outcome A * gmap Z UserSession * list Effect.

Definition bot_ret {A} (a : A) : Bot A :=
  fun _ sessions => (Ok a, sessions, []).

Definition bot_bind {A B} (m : Bot A) (k : A -> Bot B) : Bot B :=
  fun tp sessions =>
    match m tp sessions with
    | (Ok a, sessions1, tr1) =>
        match k a (spend (calls tr1) tp) sessions1 with
        | (r, sessions2, tr2) => (r, sessions2, tr1 ++ tr2)
        end
    | (Raise e, sessions1, tr1) => (Raise e, sessions1, tr1)
    end.

Definition outcome_bind {A B} (m : outcome A) (k : A -> outcome B) : outcome B :=
  match m with
  | Ok a => k a
  | Raise e => Raise e
  end.

Declare Scope bot_scope.
Delimit Scope bot_scope with bot.

Notation "x <- m ;; k" := (bot_bind m (fun x => k))
  (at level 100, m at next level, right associativity) : bot_scope.
Notation "m ;; k" := (bot_bind m (fun _ => k))
  (at level 100, right associativity) : bot_scope.

(** An exception-raising pure computation run inside a handler. *)
Definition lift {A} (m : outcome A) : Bot A :=
  fun _ sessions => (m, sessions, []).

(** An effect that cannot fail: [time.sleep], [logger.info]. *)
Definition emit (e : Effect) : Bot unit :=
  fun _ sessions => (Ok tt, sessions, [e]).

(** A call into the transport: it returns and is recorded, or it raises
    and nothing is delivered. *)
Definition transport_call (e : Effect) : Bot unit :=
  fun tp sessions =>
    match tp with
    | Some O => (Raise ApiTelegramException, sessions, [])
    | _ => (Ok tt, sessions, [e])
    end.

(** Reading the global [sessions]. *)
Definition get_sessions : Bot (gmap Z UserSession) :=
  fun _ sessions => (Ok sessions, sessions, []).

(** [sessions.get(chat_id)] *)
Definition sessions_get (chat : Z) : Bot (option UserSession) :=
  fun _ sessions => (Ok (sessions !! chat), sessions, []).

(** [sessions[chat_id]] *)
Definition sessions_getitem (chat : Z) : Bot UserSession :=
  fun _ sessions => (dict_getitem sessions chat, sessions, []).

(** [sessions[chat_id] = s], and equally an in-place mutation of the
    session object stored under [chat_id], leaving it in state [s]. *)
Definition session_write (chat : Z) (s : UserSession) : Bot unit :=
  fun _ sessions => (Ok tt, <[chat := s]> sessions, [SessionWrite chat s]).

(** [sessions.pop(chat_id, None)] *)
Definition sessions_pop (chat : Z) : Bot unit :=
  fun _ sessions => (Ok tt, delete chat sessions, [SessionPop chat]).

(** [bot.send_message] *)
Definition send_message (chat : Z) (c : Content) (reply_markup : Markup) : Bot unit :=
  transport_call (SendMessage chat c reply_markup).

(** [bot.answer_callback_query] *)
Definition answer_callback_query (id : string) : Bot unit :=
  transport_call (AnswerCallbackQuery id).

Definition result_of {A} (r : outcome A * gmap Z UserSession * list Effect) : outcome A := r.1.1.
Definition store_of {A} (r : outcome A * gmap Z UserSession * list Effect) : gmap Z UserSession := r.1.2.
Definition trace_of {A} (r : outcome A * gmap Z UserSession * list Effect) : list Effect := r.2.

(** ** The program *)

Definition CANCEL : string := "❌ Отмена".

Definition create_keyboard : Markup :=
  ReplyKeyboardMarkup [["Все"; "Мои контакты"; "Никто"]; [CANCEL]].

Definition remove_keyboard : Markup := ReplyKeyboardRemove.

(** Calendar day of an instant given in microseconds. *)
Definition date (t : Z) : Z := t `div` 86400000000.

Section Handlers.

Local Open Scope bot_scope.

(** [handle_start] *)
Definition handle_start (message : Message) (now : Z) : Bot unit :=
  let user := from_user message in
  let chat := chat_id message in
  session_write chat (Session.init chat now) ;;
  s <- sessions_getitem chat ;;
  session_write chat (Session.set_username s (default "" (tg_username user))) ;;
  s <- sessions_getitem chat ;;
  session_write chat
    (Session.set_first_name s (str_or (tg_first_name user) "Пользователь")) ;;
  send_message chat (WelcomeText (tg_first_name user) Config.VERSION)
    (InlineKeyboardMarkup [("🚀 Начать проверку", "start_check")]) ;;
  emit (LogInfo (SessionStarted (tg_id user))).

(** [ask_question] *)
Definition ask_question (chat : Z) : Bot unit :=
  session <- sessions_get chat ;;
  match session with
  | None => bot_ret tt
  | Some session =>
      if Session.is_completed session then bot_ret tt
      else
        question <- lift (list_getitem Config.QUESTIONS (current_question session)) ;;
        send_message chat
          (QuestionText (current_question session + 1) (len Config.QUESTIONS)
             (q_text question))
          create_keyboard
  end.

(** [start_check_callback] *)
Definition start_check_callback (call : CallbackQuery) : Bot unit :=
  let chat := call_chat_id call in
  session <- sessions_get chat ;;
  match session with
  | None => send_message chat RestartText NoMarkup
  | Some _ =>
      answer_callback_query (call_id call) ;;
      ask_question chat
  end.

(** [send_risk_explanation] *)
Definition send_risk_explanation (chat : Z) (question : Question)
    (answer : string) : Bot unit :=
  risk_text <- lift (dict_getitem (q_risks question) answer) ;;
  send_message chat (ExplanationText answer risk_text (q_fix question))
    remove_keyboard ;;
  emit (Sleep 1).

(** [calculate_average_score], on the current [sessions]. *)
Definition calculate_average_score (sessions : gmap Z UserSession) : outcome float :=
  if decide (size sessions = 0%nat) then Ok f0_0
  else
    let total := sum (score <$> dict_values sessions) in
    int_truediv total (Z.of_nat (size sessions)).

(** [calculate_percentile], on the current [sessions]. *)
Definition calculate_percentile (sessions : gmap Z UserSession) (score0 : Z) :
    outcome float :=
  if decide (size sessions = 0%nat) then Ok f100_0
  else
    let scores := score <$> dict_values sessions in
    let lower_scores := sum ((fun _ => 1) <$> filter (fun s => s < score0) scores) in
    outcome_bind (int_truediv lower_scores (len scores))
      (fun q => Ok (fmul_int q 100)).

(** The tally loop of the report: [answers_count[ans["answer"]] += 1]. *)
Fixpoint count_answers (answers : list AnswerRecord)
    (answers_count : gmap string Z) : outcome (gmap string Z) :=
  match answers with
  | [] => Ok answers_count
  | ans :: rest =>
      outcome_bind (dict_getitem answers_count (answer ans))
        (fun n => count_answers rest (<[answer ans := n + 1]> answers_count))
  end.

(** The tally the loop starts from. *)
Definition answers_count0 : gmap string Z :=
  list_to_map [("Все", 0); ("Мои контакты", 0); ("Никто", 0)].

(** The weak-point loop of the report, [i] being the [enumerate] index. *)
Fixpoint collect_weak_points (i : Z) (answers : list AnswerRecord)
    (weak_points : list (Question * AnswerRecord)) :
    outcome (list (Question * AnswerRecord)) :=
  match answers with
  | [] => Ok weak_points
  | ans :: rest =>
      outcome_bind (list_getitem Config.QUESTIONS i)
        (fun question =>
           collect_weak_points (i + 1) rest
             (if decide (points ans < 2) then weak_points ++ [(question, ans)]
              else weak_points))
  end.

(** The ten cells of the visual bar. *)
Definition visual_bar (score0 : Z) : list bool :=
  (fun i => bool_decide (i < score0)) <$> seqZ 0 10.

(** The number of sessions started on the day of [now]. *)
Definition started_today (sessions : gmap Z UserSession) (now : Z) : Z :=
  len (filter (fun s => date (start_time s) = date now) (dict_values sessions)).

(** [send_final_report] *)
Definition send_final_report (chat : Z) (now : Z) : Bot unit :=
  session <- sessions_get chat ;;
  match session with
  | None => bot_ret tt
  | Some session =>
      let score0 := score session in
      level_0 <- lift (dict_getitem Config.LEVELS 0) ;;
      let level := dict_get Config.LEVELS score0 level_0 in
      let duration := now - start_time session in
      let minutes := duration `div` 60000000 in
      let seconds := (duration `mod` 60000000) `div` 1000000 in
      answers_count <- lift (count_answers (answers session) answers_count0) ;;
      weak_points <- lift (collect_weak_points 0 (answers session) []) ;;
      send_message chat
        (ReportText
           {| r_level := level; r_first_name := first_name session;
              r_date := now; r_minutes := minutes; r_seconds := seconds;
              r_score := score0; r_answers_count := answers_count;
              r_weak_points := weak_points;
              r_visual_bar := visual_bar score0 |})
        remove_keyboard ;;
      sessions <- get_sessions ;;
      let today := started_today sessions now in
      average <- lift (calculate_average_score sessions) ;;
      percentile <- lift (calculate_percentile sessions score0) ;;
      send_message chat (StatsText today average percentile) NoMarkup ;;
      emit (LogInfo (CheckFinished chat score0))
  end.

(** [handle_answer] *)
Definition handle_answer (message : Message) (now : Z) : Bot unit :=
  let chat := chat_id message in
  session <- sessions_get chat ;;
  match session with
  | None => send_message chat StartText NoMarkup
  | Some session =>
      if decide (text message = CANCEL) then
        send_message chat CancelledText remove_keyboard ;;
        sessions_pop chat
      else
        question <- lift (list_getitem Config.QUESTIONS (current_question session)) ;;
        let answer := text message in
        points <- lift (dict_getitem Config.POINTS answer) ;;
        let session := Session.add_answer session (q_id question) answer points now in
        session_write chat session ;;
        send_risk_explanation chat question answer ;;
        let session := Session.incr_current_question session in
        session_write chat session ;;
        if Session.is_completed session then
          send_final_report chat now ;;
          sessions_pop chat
        else
          ask_question chat
  end.

Definition ADMIN_IDS : list Z := [].

(** [handle_stats] *)
Definition handle_stats (message : Message) (now : Z) : Bot unit :=
  if decide (tg_id (from_user message) ∈ ADMIN_IDS) then
    sessions <- get_sessions ;;
    average <- lift (calculate_average_score sessions) ;;
    send_message (chat_id message)
      (BotStatsText Config.VERSION (Z.of_nat (size sessions))
         (started_today sessions now) average)
      NoMarkup
  else
    send_message (chat_id message) AdminOnlyText NoMarkup.

(** [handle_version] *)
Definition handle_version (message : Message) : Bot unit :=
  send_message (chat_id message) (VersionText Config.AUTHOR Config.VERSION) NoMarkup.

Definition responses : list string :=
  ["Я понимаю только кнопки и команды /start";
   "Пожалуйста, используйте кнопки для ответов";
   "Напишите /start чтобы начать проверку";
   "Выберите вариант ответа из кнопок ниже"].

(** [handle_unknown]; [pick] is the index drawn by [random.choice]. *)
Definition handle_unknown (message : Message) (pick : nat) : Bot unit :=
  send_message (chat_id message)
    (UnknownText (default "" (responses !! (pick `mod` length responses)%nat)))
    create_keyboard.

End Handlers.

(** ** The dispatcher *)

Inductive Update :=
| TextMessage (m : Message)
| Callback (c : CallbackQuery).

(** What the environment supplies while one update is handled: the clock
    reading, the draw of [random.choice] and the conduct of the
    transport. *)
Record Env := {
  now : Z;
  pick : nat;
  transport : Transport
}.

Definition is_command (message : Message) (names : list string) : bool :=
  match command message with
  | Some c => bool_decide (c ∈ names)
  | None => false
  end.

(** Message handlers are tried in the order of their registration; the
    first whose filter accepts the message runs. *)
Definition dispatch (u : Update) (env : Env) (sessions : gmap Z UserSession) :
    outcome unit * gmap Z UserSession * list Effect :=
  let tp := transport env in
  match u with
  | TextMessage m =>
      if is_command m ["start"; "help"] then handle_start m (now env) tp sessions
      else if bool_decide (text m ∈ ["Все"; "Мои контакты"; "Никто"; CANCEL])
        then handle_answer m (now env) tp sessions
      else if is_command m ["stats"] then handle_stats m (now env) tp sessions
      else if is_command m ["version"] then handle_version m tp sessions
      else handle_unknown m (pick env) tp sessions
  | Callback c =>
      if decide (call_data c = "start_check") then start_check_callback c tp sessions
      else bot_ret tt tp sessions
  end.

(** The polling loop over a finite stream of updates: the store left by
    one update is the store the next one sees, whether or not the handler
    raised; the traces are concatenated. *)
Fixpoint run (updates : list (Update * Env)) (sessions : gmap Z UserSession) :
    gmap Z UserSession * list Effect :=
  match updates with
  | [] => (sessions, [])
  | (u, env) :: rest =>
      let r := dispatch u env sessions in
      let r' := run rest (store_of r) in
      (r'.1, trace_of r ++ r'.2)
  end.

(** The messages a trace sends to [chat], in order. *)
Definition sent_to (chat : Z) (tr : list Effect) : list Content :=
  omap (fun e => match e with
                 | SendMessage c m _ => if decide (c = chat) then Some m else None
                 | _ => None
                 end) tr.

(** The reports a trace sends to [chat], in order. *)
Definition reports_to (chat : Z) (tr : list Effect) : list Report :=
  omap (fun c => match c with ReportText r => Some r | _ => None end) (sent_to chat tr).

(** The three canonical answers. *)
Definition canonical (a : string) : Prop := a ∈ ["Все"; "Мои контакты"; "Никто"].

(** ** Vocabulary of the properties *)

(** The report sent for session [s] at instant [t], given the results of
    its two loops. *)
Definition report_of (s : UserSession) (t : Z) (answers_count : gmap string Z)
    (weak_points : list (Question * AnswerRecord)) : Report :=
  {| r_level := dict_get Config.LEVELS (score s) Config.level_0;
     r_first_name := first_name s;
     r_date := t;
     r_minutes := (t - start_time s) `div` 60000000;
     r_seconds := ((t - start_time s) `mod` 60000000) `div` 1000000;
     r_score := score s;
     r_answers_count := answers_count;
     r_weak_points := weak_points;
     r_visual_bar := visual_bar (score s) |}.

(** The facts that relate the fields of a session to its answers. *)
Record session_inv (s : UserSession) : Prop := {
  inv_index : current_question s = len (answers s);
  inv_score : score s = sum (points <$> answers s);
  inv_answers : forall (i : nat) (a : AnswerRecord),
    answers s !! i = Some a ->
    exists q, Config.QUESTIONS !! i = Some q /\
              question_id a = q_id q /\
              Config.POINTS !! answer a = Some (points a)
}.

(** What holds of every session kept in the store between two updates. *)
Definition session_ok (s : UserSession) : Prop :=
  session_inv s /\ current_question s < len Config.QUESTIONS.

Definition store_ok (sessions : gmap Z UserSession) : Prop :=
  map_Forall (fun _ s => session_ok s) sessions.

(** The session after a recorded answer: [add_answer], then the index
    is advanced. *)
Definition answered (s : UserSession) (q : Question) (a : string) (p t : Z) :
    UserSession :=
  Session.incr_current_question (Session.add_answer s (q_id q) a p t).

(** The updates of one chat: a start command and an answer. *)
Definition start_update (chat : Z) (user : User) (env : Env) : Update * Env :=
  (TextMessage {| chat_id := chat; from_user := user; text := "/start";
                  command := Some "start" |}, env).

Definition answer_update (chat : Z) (user : User) (te : string * Env) : Update * Env :=
  (TextMessage {| chat_id := chat; from_user := user; text := te.1;
                  command := None |}, te.2).

(** The session after the answers [tes], given with the clock reading
    of each. *)
Fixpoint record_answers (s : UserSession) (tes : list (string * Env)) : UserSession :=
  match tes with
  | [] => s
  | te :: rest =>
      match Config.QUESTIONS !! Z.to_nat (current_question s),
            Config.POINTS !! te.1 with
      | Some q, Some p => record_answers (answered s q te.1 p (now te.2)) rest
      | _, _ => s
      end
  end.


(** Concrete inputs on which the statements below are instantiated. *)
Module Demo.

Definition alice : User :=
  {| tg_id := 7; tg_username := Some "alice"; tg_first_name := "Alice" |}.

Definition at_time (t : Z) : Env := {| now := t; pick := 0; transport := None |}.

Definition says (a : string) : Message :=
  {| chat_id := 42; from_user := alice; text := a; command := None |}.

(** A start and the first four answers, one second apart. *)
Definition four_answers : list (Update * Env) :=
  start_update 42 alice (at_time 0) ::
  (answer_update 42 alice <$>
     [("Все", at_time 1000000); ("Мои контакты", at_time 2000000);
      ("Никто", at_time 3000000); ("Все", at_time 4000000)]).

Definition session_after_four : UserSession :=
  {| user_id := 42;
     answers :=
       [{| question_id := "phone"; answer := "Все"; points := 0;
           timestamp := 1000000 |};
        {| question_id := "last_seen"; answer := "Мои контакты"; points := 1;
           timestamp := 2000000 |};
        {| question_id := "profile_photo"; answer := "Никто"; points := 2;
           timestamp := 3000000 |};
        {| question_id := "groups"; answer := "Все"; points := 0;
           timestamp := 4000000 |}];
     current_question := 4;
     score := 3;
     start_time := 0;
     username := "alice";
     first_name := "Alice" |}.

(** The store that holds this one session. *)
Definition one_session : gmap Z UserSession := {[ 42 := session_after_four ]}.

Definition start_again : Message :=
  {| chat_id := 42; from_user := alice; text := "/start"; command := Some "start" |}.


End Demo.

(** ** Token loading *)

Module Token.

(** A Python [str] as its sequence of code points. *)
Definition str := list N.

Definition COLON : N := 58.

(** [s.split(sep)] for a one-character separator; [cur] is the part
    being read. *)
Fixpoint split_from (sep : N) (cur : str) (s : str) : list str :=
  match s with
  | [] => [cur]
  | c :: rest =>
      if decide (c = sep) then cur :: split_from sep [] rest
      else split_from sep (cur ++ [c]) rest
  end.

Definition split (s : str) (sep : N) : list str := split_from sep [] s.

Inductive exit := SystemExit (code : Z).

Section Loading.

(** Whether [str.isdigit] accepts a one-character string. *)
Variable isdigit_char : N -> bool.

(** [s.isdigit()]: at least one character, and digits only. *)
Definition isdigit (s : str) : bool :=
  match s with
  | [] => false
  | _ => forallb isdigit_char s
  end.

(** [validate_token] *)
Definition validate_token (token : str) : bool :=
  match token with
  | [] => false
  | _ =>
      match split token COLON with
      | [part0; part1] =>
          if negb (isdigit part0) then false
          else if decide (length part1 < 10)%nat then false
          else true
      | _ => false
      end
  end.

(** A token source: a call that reads the environment, a file or the
    terminal, and returns a token or [None]. *)
Variable World : Type.

Definition source : Type := World -> option str * World.

(** The loop of [load_token] over its sources, and the exit that
    follows it. *)
Fixpoint load_token_from (sources : list source) (w : World) : (str + exit) * World :=
  match sources with
  | [] => (inr (SystemExit 1), w)
  | src :: rest =>
      match src w with
      | (Some token, w1) =>
          if negb (bool_decide (token = [])) && validate_token token
          then (inl token, w1)
          else load_token_from rest w1
      | (None, w1) => load_token_from rest w1
      end
  end.

(** [load_token], given its four sources in order. *)
Definition load_token (environ dotenv config interactive : source) (w : World) :
    (str + exit) * World :=
  load_token_from [environ; dotenv; config; interactive] w.

(** The world after the sources [sources] have all been called. *)
Fixpoint after_sources (sources : list source) (w : World) : World :=
  match sources with
  | [] => w
  | src :: rest => after_sources rest (src w).2
  end.

(** No source of [sources], called in turn from [w], yields a token that
    [load_token] accepts. *)
Fixpoint all_rejected (sources : list source) (w : World) : Prop :=
  match sources with
  | [] => True
  | src :: rest =>
      match (src w).1 with
      | Some token => validate_token token = false
      | None => True
      end /\ all_rejected rest (src w).2
  end.

End Loading.

(** The decimal digits of ASCII, which [str.isdigit] accepts. *)
Definition ascii_digit (c : N) : bool := (48 <=? c)%N && (c <=? 57)%N.

End Token.

(** ** Locality of the handlers *)

(** The chat an update comes from. *)
Definition chat_of (u : Update) : Z :=
  match u with
  | TextMessage m => chat_id m
  | Callback c => call_chat_id c
  end.

(** The effect [e] is addressed to chat [c], or to no chat at all. *)
Definition about (c : Z) (e : Effect) : Prop :=
  match e with
  | SendMessage c' _ _ | SessionWrite c' _ | SessionPop c' => c' = c
  | AnswerCallbackQuery _ | Sleep _ | LogInfo _ => True
  end.

(** The computation [m] reads whatever it likes but writes sessions
    and sends messages for chat [c] only. *)
Definition local_to {A} (c : Z) (m : Bot A) : Prop :=
  forall tp sessions,
    (forall c', c' ≠ c -> store_of (m tp sessions) !! c' = sessions !! c') /\
    Forall (about c) (trace_of (m tp sessions)).

(** The computation [m] leaves [sessions] as it found it. *)
Definition read_only {A} (m : Bot A) : Prop :=
  forall tp sessions, store_of (m tp sessions) = sessions.

(** An update that the dispatcher routes to [handle_start]. *)
Definition is_start (u : Update) : bool :=
  match u with
  | TextMessage m => is_command m ["start"; "help"]
  | Callback _ => false
  end.

(** An update that the dispatcher routes to [handle_answer]. *)
Definition is_answer (u : Update) : bool :=
  match u with
  | TextMessage m =>
      negb (is_command m ["start"; "help"]) &&
      bool_decide (text m ∈ ["Все"; "Мои контакты"; "Никто"; CANCEL])
  | Callback _ => false
  end.

(** ** Vocabulary of the report properties *)

(** How many of the answers [l] are the choice [k]. *)
Definition times_chosen (k : string) (l : list AnswerRecord) : Z :=
  Z.of_nat (length (filter (fun a => answer a = k) l)).

(** The report [rep] is the one [send_final_report] builds at some
    instant for a well-formed session that has answered every question. *)
Definition report_of_completed (rep : Report) : Prop :=
  exists (s : UserSession) (t : Z) (ac : gmap string Z)
         (wp : list (Question * AnswerRecord)),
    session_inv s /\
    current_question s = len Config.QUESTIONS /\
    count_answers (answers s) answers_count0 = Ok ac /\
    collect_weak_points 0 (answers s) [] = Ok wp /\
    rep = report_of s t ac wp.

(** ** The state machine of one chat *)


(** Further concrete inputs. *)
Module Sample.

Definition first_answer : AnswerRecord :=
  {| question_id := "phone"; answer := "Все"; points := 0; timestamp := 1000000 |}.

Definition second_answer : AnswerRecord :=
  {| question_id := "last_seen"; answer := "Никто"; points := 2; timestamp := 2000000 |}.

(** A start and one answer. *)
Definition one_answer : list (Update * Env) :=
  [start_update 42 Demo.alice (Demo.at_time 0);
   answer_update 42 Demo.alice ("Все", Demo.at_time 1000000)].

Definition session_after_one : UserSession :=
  {| user_id := 42; answers := [first_answer]; current_question := 1; score := 0;
     start_time := 0; username := "alice"; first_name := "Alice" |}.

Definition session_after_two : UserSession :=
  {| user_id := 42; answers := [first_answer; second_answer]; current_question := 2;
     score := 2; start_time := 0; username := "alice"; first_name := "Alice" |}.

(** A whole quiz: the four answers of [Demo.four_answers] and a fifth. *)
Definition whole_quiz : list (Update * Env) :=
  Demo.four_answers ++
  [answer_update 42 Demo.alice ("Мои контакты", Demo.at_time 5000000)].

Definition fifth_answer : AnswerRecord :=
  {| question_id := "forwarding"; answer := "Мои контакты"; points := 1;
     timestamp := 5000000 |}.

Definition session_after_five : UserSession :=
  {| user_id := 42;
     answers := answers Demo.session_after_four ++ [fifth_answer];
     current_question := 5; score := 4; start_time := 0;
     username := "alice"; first_name := "Alice" |}.

(** The report that ends [whole_quiz]. *)
Definition report : Report :=
  report_of session_after_five 5000000
    (list_to_map [("Все", 2); ("Мои контакты", 2); ("Никто", 1)])
    [(Config.question_phone,
      {| question_id := "phone"; answer := "Все"; points := 0;
         timestamp := 1000000 |});
     (Config.question_last_seen,
      {| question_id := "last_seen"; answer := "Мои контакты"; points := 1;
         timestamp := 2000000 |});
     (Config.question_groups,
      {| question_id := "groups"; answer := "Все"; points := 0;
         timestamp := 4000000 |});
     (Config.question_forwarding, fifth_answer)].

Definition begin_press : CallbackQuery :=
  {| call_id := "1"; call_data := "start_check"; call_chat_id := 42 |}.

(** A token of the accepted shape: [1:abcdefghij]. *)
Definition token : Token.str := [49; 58; 97; 98; 99; 100; 101; 102; 103; 104; 105; 106]%N.

End Sample.

(** ** Runs and the transport *)

(** Every call into the transport returns while [updates] are handled. *)
Definition delivered (updates : list (Update * Env)) : Prop :=
  Forall (fun ue => transport ue.2 = None) updates.

(** What holds of every session in the store between two updates,
    whatever the transport does: the score is the sum of the recorded
    points, every record carries the points of its choice, the index is
    within the catalog or one past it, and it does not exceed the number
    of records; a session whose index equals the number of its records
    has them aligned with the catalog. *)
Record session_wf (s : UserSession) : Prop := {
  wf_score : score s = sum (points <$> answers s);
  wf_points : forall a, a ∈ answers s -> Config.POINTS !! answer a = Some (points a);
  wf_index : 0 <= current_question s <= len Config.QUESTIONS;
  wf_behind : current_question s <= len (answers s);
  wf_sync : current_question s = len (answers s) -> session_inv s
}.

Definition store_wf (sessions : gmap Z UserSession) : Prop :=
  map_Forall (fun _ s => session_wf s) sessions.

(** Every score of the store is small enough for its magnitude to be a
    float. *)
Definition scores_in_float_range (sessions : gmap Z UserSession) : Prop :=
  map_Forall (fun _ s => Z.abs (score s) < OVERFLOW_AT) sessions.





(** Inputs off the expected path: sends that are not delivered, and
    sessions that no quiz produces. *)
Module Edge.

(** The environment of an update during which the transport returns
    from [n] calls and raises at the next. *)
Definition failing_after (n : nat) (t : Z) : Env :=
  {| now := t; pick := 0; transport := Some n |}.



(** A session of another chat whose score is beyond the floats. *)
Definition huge_session : UserSession :=
  {| user_id := 7; answers := []; current_question := 0; score := 2 ^ 1025;
     start_time := 0; username := ""; first_name := "" |}.

Definition huge_store : gmap Z UserSession := {[ 7 := huge_session ]}.

(** A session whose score is not in the table of levels. *)
Definition session_off_table : UserSession :=
  {| user_id := 42; answers := []; current_question := 0; score := 11;
     start_time := 0; username := "alice"; first_name := "Alice" |}.

Definition store_off_table : gmap Z UserSession := {[ 42 := session_off_table ]}.

End Edge.

(** Tactics: unfolding the monad, and reading the messages of a trace. *)
Ltac run_bot :=
  cbv [bot_bind bot_ret lift emit send_message answer_callback_query
       transport_call spend calls is_call Nat.sub session_write sessions_get
       sessions_getitem sessions_pop get_sessions result_of store_of trace_of].

(** The budget of the transport, once [run_bot] has spent the calls of
    the trace so far. *)
Ltac budget :=
  cbn [app];
  change (fix sub (n m : nat) {struct n} : nat :=
            match n with
            | O => n
            | S k => match m with O => n | S l => sub k l end
            end) with Nat.sub;
  cbn [Nat.sub]; rewrite ?Nat.sub_0_r.

Ltac simpl_sent :=
  unfold reports_to, sent_to; cbn [omap list_omap];
  rewrite ?decide_True by reflexivity; cbn [omap list_omap].

(** * Properties *)

(** ** Starting over *)

Lemma handle_start_any (m : Message) (t : Z) (tp : Transport)
    (sessions : gmap Z UserSession) :
  handle_start m t tp sessions =
    (let s0 := Session.init (chat_id m) t in
     let s1 := Session.set_username s0 (default "" (tg_username (from_user m))) in
     let s2 := Session.set_first_name s1
                 (str_or (tg_first_name (from_user m)) "Пользователь") in
     (match tp with Some O => Raise ApiTelegramException | _ => Ok tt end,
      <[chat_id m := s2]> sessions,
      [SessionWrite (chat_id m) s0; SessionWrite (chat_id m) s1;
       SessionWrite (chat_id m) s2] ++
      match tp with
      | Some O => []
      | _ =>
          [SendMessage (chat_id m)
             (WelcomeText (tg_first_name (from_user m)) Config.VERSION)
             (InlineKeyboardMarkup [("🚀 Начать проверку", "start_check")]);
           LogInfo (SessionStarted (tg_id (from_user m)))]
      end)).
Proof.
  unfold handle_start. destruct tp as [[|k]|]; run_bot; unfold dict_getitem;
    repeat (rewrite lookup_insert_eq; cbv beta iota zeta);
    rewrite !insert_insert_eq; reflexivity.
Qed.

Lemma handle_start_eq (m : Message) (t : Z) (sessions : gmap Z UserSession) :
  handle_start m t None sessions =
    (let s0 := Session.init (chat_id m) t in
     let s1 := Session.set_username s0 (default "" (tg_username (from_user m))) in
     let s2 := Session.set_first_name s1
                 (str_or (tg_first_name (from_user m)) "Пользователь") in
     (Ok tt, <[chat_id m := s2]> sessions,
      [SessionWrite (chat_id m) s0; SessionWrite (chat_id m) s1;
       SessionWrite (chat_id m) s2;
       SendMessage (chat_id m)
         (WelcomeText (tg_first_name (from_user m)) Config.VERSION)
         (InlineKeyboardMarkup [("🚀 Начать проверку", "start_check")]);
       LogInfo (SessionStarted (tg_id (from_user m)))])).
Proof. by rewrite handle_start_any. Qed.

(** C3. Issuing the start command for a chat that already has a session
    replaces that session by a fresh one: question index 0, no answers,
    score 0; no answer of the replaced session is left in it.  This is
    so whether or not the welcome message is delivered; when it is, the
    handler returns normally. *)
Theorem start_replaces_session (m : Message) (env : Env)
    (sessions : gmap Z UserSession) (old : UserSession)
    (Hold : sessions !! chat_id m = Some old)
    (Hcmd : is_command m ["start"; "help"] = true) :
  let r := dispatch (TextMessage m) env sessions in
  (transport env ≠ Some 0%nat -> result_of r = Ok tt) /\
  exists s, store_of r !! chat_id m = Some s /\
    current_question s = 0 /\ answers s = [] /\ score s = 0 /\
    start_time s = now env /\
    forall a, a ∈ answers old -> a ∉ answers s.
Proof.
  cbv zeta. unfold dispatch. rewrite Hcmd, handle_start_any. cbv zeta.
  unfold result_of, store_of. cbn [fst snd]. split.
  { intros Htp. by destruct (transport env) as [[|k]|]. }
  eexists. split; [apply lookup_insert_eq|].
  cbn. repeat split. intros a _. apply not_elem_of_nil.
Qed.

(** ** Cancelling *)

Lemma handle_answer_cancel_any (m : Message) (t : Z) (tp : Transport)
    (sessions : gmap Z UserSession) (s : UserSession) :
  sessions !! chat_id m = Some s ->
  text m = CANCEL ->
  tp ≠ Some 0%nat ->
  handle_answer m t tp sessions =
    (Ok tt, delete (chat_id m) sessions,
     [SendMessage (chat_id m) CancelledText remove_keyboard;
      SessionPop (chat_id m)]).
Proof.
  intros Hs Hcancel Htp. unfold handle_answer.
  destruct tp as [[|k]|]; [done| |]; run_bot; rewrite Hs;
    (destruct (decide (text m = CANCEL)) as [_|Hne]; [|contradiction]);
    reflexivity.
Qed.

Lemma handle_answer_cancel (m : Message) (t : Z)
    (sessions : gmap Z UserSession) (s : UserSession) :
  sessions !! chat_id m = Some s ->
  text m = CANCEL ->
  handle_answer m t None sessions =
    (Ok tt, delete (chat_id m) sessions,
     [SendMessage (chat_id m) CancelledText remove_keyboard;
      SessionPop (chat_id m)]).
Proof. intros Hs Hcancel. by apply (handle_answer_cancel_any m t None sessions s). Qed.

Lemma handle_answer_absent (m : Message) (t : Z) (sessions : gmap Z UserSession) :
  sessions !! chat_id m = None ->
  handle_answer m t None sessions =
    (Ok tt, sessions, [SendMessage (chat_id m) StartText NoMarkup]).
Proof. intros Hs. unfold handle_answer. run_bot. by rewrite Hs. Qed.

(** C4. With a session in the store, at whatever question index, an
    answer carrying the cancel sentinel, whose acknowledgment the
    transport delivers, sends the cancellation acknowledgment, pops the
    session and does nothing else: the trace holds no write to the
    session (no answer recorded, score untouched) and no report. *)
Theorem cancel_deletes_session (m : Message) (t : Z) (tp : Transport)
    (sessions : gmap Z UserSession) (s : UserSession)
    (Hs : sessions !! chat_id m = Some s)
    (Hcancel : text m = CANCEL)
    (Htp : tp ≠ Some 0%nat) :
  let r := handle_answer m t tp sessions in
  result_of r = Ok tt /\
  store_of r = delete (chat_id m) sessions /\
  store_of r !! chat_id m = None /\
  trace_of r = [SendMessage (chat_id m) CancelledText remove_keyboard;
                SessionPop (chat_id m)] /\
  reports_to (chat_id m) (trace_of r) = [].
Proof.
  cbv zeta. rewrite (handle_answer_cancel_any m t tp sessions s Hs Hcancel Htp).
  unfold result_of, store_of, trace_of. cbn [fst snd]. repeat split.
  - apply lookup_delete_eq.
  - unfold reports_to, sent_to. cbn [omap list_omap].
    destruct (decide (chat_id m = chat_id m)); reflexivity.
Qed.

(** ** The score-to-level table *)

Lemma LEVELS_dom (x : Z) : Config.LEVELS !! x = None <-> (x < 0 \/ 10 < x).
Proof.
  split.
  - intros H.
    destruct (decide (x < 0)) as [|Hlo]; [by left|].
    destruct (decide (10 < x)) as [|Hhi]; [by right|].
    exfalso.
    assert (Hx : x ∈ seqZ 0 11) by (apply elem_of_seqZ; lia).
    revert H. revert x Hx Hlo Hhi.
    apply (Forall_forall (fun x => ¬ x < 0 -> ¬ 10 < x -> Config.LEVELS !! x = None -> False)).
    repeat constructor; intros _ _; discriminate.
  - intros H. unfold Config.LEVELS. cbn [list_to_map foldr uncurry fst snd].
    rewrite !lookup_insert_ne by lia. apply lookup_empty.
Qed.

Lemma LEVELS_zero : dict_getitem Config.LEVELS 0 = Ok Config.level_0.
Proof. reflexivity. Qed.

(** ** The reports in the trace of [send_final_report] *)

Ltac no_report H :=
  repeat (apply elem_of_cons in H as [H|H]; [discriminate H|]);
  by apply elem_of_nil in H.

(** A report in the trace of [send_final_report] is the report of the
    session of the chat, which has passed both loops. *)
Lemma send_final_report_reports (chat t : Z) (tp : Transport)
    (sessions : gmap Z UserSession) (c : Z) (rep : Report) (k : Markup) :
  SendMessage c (ReportText rep) k ∈ trace_of (send_final_report chat t tp sessions) ->
  exists s ac wp,
    sessions !! chat = Some s /\
    count_answers (answers s) answers_count0 = Ok ac /\
    collect_weak_points 0 (answers s) [] = Ok wp /\
    rep = report_of s t ac wp.
Proof.
  unfold send_final_report.
  destruct (sessions !! chat) as [s|] eqn:Hs.
  2:{ run_bot. rewrite Hs. cbn. intros H. no_report H. }
  destruct (count_answers (answers s) answers_count0) as [ac|e] eqn:Hac.
  2:{ run_bot. rewrite Hs, LEVELS_zero, Hac. cbn. intros H. no_report H. }
  destruct (collect_weak_points 0 (answers s) []) as [wp|e] eqn:Hwp.
  2:{ run_bot. rewrite Hs, LEVELS_zero, Hac, Hwp. cbn. intros H. no_report H. }
  intros H. exists s, ac, wp. repeat (split; [done|]). revert H.
  destruct tp as [[|[|k']]|]; run_bot; rewrite Hs, LEVELS_zero, Hac, Hwp;
    cbv beta iota zeta;
    destruct (calculate_average_score sessions) as [avg|e1];
    destruct (calculate_percentile sessions (score s)) as [pct|e2];
    cbn [app fst snd]; intros H;
    repeat (apply elem_of_cons in H as [H|H];
            [first [discriminate H | by injection H as _ -> _]|]);
    by apply elem_of_nil in H.
Qed.

(** ** The report *)

Lemma int_truediv_ok (a b : Z) :
  b ≠ 0 -> Z.abs a < OVERFLOW_AT * Z.abs b ->
  int_truediv a b = Ok (quotient a b).
Proof.
  intros Hb Hlt. unfold int_truediv.
  destruct (decide (b = 0)); [contradiction|].
  destruct (decide (OVERFLOW_AT * Z.abs b <= Z.abs a)); [lia|reflexivity].
Qed.

Lemma OVERFLOW_AT_large : 10 < OVERFLOW_AT.
Proof. reflexivity. Qed.

Lemma int_truediv_small (a b : Z) :
  b ≠ 0 -> Z.abs a <= 10 * Z.abs b -> int_truediv a b = Ok (quotient a b).
Proof.
  intros Hb Hle. apply int_truediv_ok; [done|].
  pose proof OVERFLOW_AT_large as HT.
  assert (0 < Z.abs b) by lia.
  apply Z.le_lt_trans with (10 * Z.abs b); [done|].
  apply Z.mul_lt_mono_pos_r; lia.
Qed.

Lemma int_truediv_nonzero (a b : Z) :
  b ≠ 0 -> int_truediv a b = Ok (quotient a b) \/ int_truediv a b = Raise OverflowError.
Proof.
  intros Hb. unfold int_truediv.
  destruct (decide (b = 0)); [contradiction|].
  destruct (decide _); [by right|by left].
Qed.

Lemma sum_ones {A} (l : list A) : sum ((fun _ => 1) <$> l) = Z.of_nat (length l).
Proof. induction l as [|a l IH]; cbn [fmap list_fmap sum foldr length]; [reflexivity|]. unfold sum in IH. lia. Qed.

Lemma length_dict_values (sessions : gmap Z UserSession) :
  length (dict_values sessions) = size sessions.
Proof. unfold dict_values. rewrite length_fmap. apply length_map_to_list. Qed.

(** The mean of a non-empty store, when the quotient is not too large. *)
Lemma average_nonempty (sessions : gmap Z UserSession) :
  sessions ≠ ∅ ->
  Z.abs (sum (score <$> dict_values sessions)) <= 10 * Z.of_nat (size sessions) ->
  calculate_average_score sessions =
    Ok (quotient (sum (score <$> dict_values sessions)) (Z.of_nat (size sessions))).
Proof.
  intros Hne Hle. apply map_size_non_empty_iff in Hne.
  unfold calculate_average_score.
  destruct (decide (size sessions = 0%nat)); [contradiction|].
  apply int_truediv_small; lia.
Qed.

Lemma average_cases (sessions : gmap Z UserSession) :
  (exists avg, calculate_average_score sessions = Ok avg) \/
  calculate_average_score sessions = Raise OverflowError.
Proof.
  unfold calculate_average_score.
  destruct (decide (size sessions = 0%nat)); [left; by eexists|].
  destruct (int_truediv_nonzero (sum (score <$> dict_values sessions))
              (Z.of_nat (size sessions))) as [->| ->]; [lia| |]; eauto.
Qed.

Lemma percentile_nonempty (sessions : gmap Z UserSession) (x : Z) :
  sessions ≠ ∅ ->
  calculate_percentile sessions x =
    Ok (fmul_int
          (quotient
             (sum ((fun _ => 1) <$> filter (fun s => s < x) (score <$> dict_values sessions)))
             (Z.of_nat (size sessions)))
          100).
Proof.
  intros Hne. apply map_size_non_empty_iff in Hne.
  unfold calculate_percentile.
  destruct (decide (size sessions = 0%nat)); [contradiction|].
  unfold len. rewrite length_fmap, length_dict_values.
  rewrite int_truediv_small; [reflexivity|lia|].
  rewrite sum_ones.
  pose proof (length_filter (fun s => s < x) (score <$> dict_values sessions)) as Hlen.
  rewrite length_fmap, length_dict_values in Hlen. lia.
Qed.

Lemma percentile_returns (sessions : gmap Z UserSession) (x : Z) :
  exists pct, calculate_percentile sessions x = Ok pct.
Proof.
  destruct (decide (sessions = ∅)) as [->|Hne]; [by eexists|].
  rewrite percentile_nonempty by done. by eexists.
Qed.

(** What [send_final_report] does for a chat that has a session, with a
    transport that delivers: nothing when one of its loops raises; the
    report alone when the mean raises; the report, the statistics and
    the log line otherwise. *)
Lemma send_final_report_cases (chat t : Z) (sessions : gmap Z UserSession)
    (s : UserSession) :
  sessions !! chat = Some s ->
  (exists e, send_final_report chat t None sessions = (Raise e, sessions, []) /\
     (count_answers (answers s) answers_count0 = Raise e \/
      collect_weak_points 0 (answers s) [] = Raise e)) \/
  (exists ac wp pct,
     count_answers (answers s) answers_count0 = Ok ac /\
     collect_weak_points 0 (answers s) [] = Ok wp /\
     calculate_percentile sessions (score s) = Ok pct /\
     match calculate_average_score sessions with
     | Ok avg =>
         send_final_report chat t None sessions =
           (Ok tt, sessions,
            [SendMessage chat (ReportText (report_of s t ac wp)) remove_keyboard;
             SendMessage chat (StatsText (started_today sessions t) avg pct) NoMarkup;
             LogInfo (CheckFinished chat (score s))])
     | Raise e =>
         send_final_report chat t None sessions =
           (Raise e, sessions,
            [SendMessage chat (ReportText (report_of s t ac wp)) remove_keyboard])
     end).
Proof.
  intros Hs.
  unfold send_final_report. run_bot. rewrite Hs, LEVELS_zero.
  destruct (count_answers (answers s) answers_count0) as [ac|e] eqn:Hac;
    [|left; exists e; split; [done|by left]].
  destruct (collect_weak_points 0 (answers s) []) as [wp|e] eqn:Hwp;
    [|left; exists e; split; [done|by right]].
  right. destruct (percentile_returns sessions (score s)) as [pct Hpct].
  exists ac, wp, pct. repeat (split; [done|]).
  rewrite Hpct. by destruct (calculate_average_score sessions).
Qed.

(** Whatever the transport does after its first call, a session that
    passes both loops has its report sent, and no other report. *)
Lemma send_final_report_sends (chat t : Z) (tp : Transport)
    (sessions : gmap Z UserSession) (s : UserSession)
    (ac : gmap string Z) (wp : list (Question * AnswerRecord)) :
  sessions !! chat = Some s ->
  count_answers (answers s) answers_count0 = Ok ac ->
  collect_weak_points 0 (answers s) [] = Ok wp ->
  tp ≠ Some 0%nat ->
  exists r rest,
    send_final_report chat t tp sessions =
      (r, sessions,
       SendMessage chat (ReportText (report_of s t ac wp)) remove_keyboard :: rest) /\
    forall rep, SendMessage chat (ReportText rep) remove_keyboard ∉ rest.
Proof.
  intros Hs Hac Hwp Htp.
  destruct (percentile_returns sessions (score s)) as [pct Hpct].
  unfold send_final_report.
  destruct tp as [[|[|k]]|]; [done| | |]; run_bot;
    rewrite Hs, LEVELS_zero, Hac, Hwp, ?Hpct;
    destruct (calculate_average_score sessions) as [avg|e];
    eexists _, _; (split; [reflexivity|]); intros rep Hin;
    repeat (apply elem_of_cons in Hin as [Hin|Hin]; [discriminate Hin|]);
    by apply elem_of_nil in Hin.
Qed.

Lemma sent_to_send (chat : Z) (c : Content) (k : Markup) (tr : list Effect) :
  sent_to chat (SendMessage chat c k :: tr) = c :: sent_to chat tr.
Proof.
  unfold sent_to. cbn [omap list_omap].
  destruct (decide (chat = chat)); [reflexivity|contradiction].
Qed.

Lemma sent_to_app (chat : Z) (tr1 tr2 : list Effect) :
  sent_to chat (tr1 ++ tr2) = sent_to chat tr1 ++ sent_to chat tr2.
Proof. unfold sent_to. apply omap_app. Qed.

Lemma reports_to_app (chat : Z) (tr1 tr2 : list Effect) :
  reports_to chat (tr1 ++ tr2) = reports_to chat tr1 ++ reports_to chat tr2.
Proof. unfold reports_to. rewrite sent_to_app. apply omap_app. Qed.

Lemma elem_of_sent_to (c : Z) (x : Content) (tr : list Effect) :
  x ∈ sent_to c tr <-> exists k, SendMessage c x k ∈ tr.
Proof.
  unfold sent_to. rewrite list_elem_of_omap. split.
  - intros (e & He & Hx). destruct e; try discriminate.
    destruct (decide (chat = c)) as [->|]; [|discriminate].
    injection Hx as ->. eauto.
  - intros [k Hk]. exists (SendMessage c x k). split; [done|].
    by rewrite decide_True.
Qed.

(** C7. A score that is not a key of the score-to-level table, in
    particular a negative one or one above 10, is given the entry of
    score 0 by the lookup of the final report: for a session with such
    a score that passes the loops of the report, [send_final_report]
    sends, as its first effect, a report that carries this score and
    the level of score 0 (unless the transport raises at once), and
    whatever the transport does it sends no report with another
    level. *)
Theorem level_lookup_falls_back (x : Z) (chat t : Z) (tp : Transport)
    (sessions : gmap Z UserSession) (s : UserSession)
    (ac : gmap string Z) (wp : list (Question * AnswerRecord))
    (Hout : Config.LEVELS !! x = None \/ x < 0 \/ 10 < x)
    (Hs : sessions !! chat = Some s)
    (Hx : score s = x)
    (Hac : count_answers (answers s) answers_count0 = Ok ac)
    (Hwp : collect_weak_points 0 (answers s) [] = Ok wp)
    (Htp : tp ≠ Some 0%nat) :
  dict_getitem Config.LEVELS 0 = Ok Config.level_0 /\
  dict_get Config.LEVELS x Config.level_0 = Config.level_0 /\
  (exists rep rest,
     trace_of (send_final_report chat t tp sessions) =
       SendMessage chat (ReportText rep) remove_keyboard :: rest /\
     r_score rep = x /\
     r_level rep = Config.level_0) /\
  (forall (chat' t' : Z) (tp' : Transport) (sessions' : gmap Z UserSession)
          (s' : UserSession) (r : Report),
     sessions' !! chat' = Some s' -> score s' = x ->
     ReportText r ∈ sent_to chat'
       (trace_of (send_final_report chat' t' tp' sessions')) ->
     r_level r = Config.level_0).
Proof.
  assert (Hnone : Config.LEVELS !! x = None).
  { destruct Hout as [H|H]; [exact H|by apply LEVELS_dom]. }
  assert (Hget : dict_get Config.LEVELS x Config.level_0 = Config.level_0).
  { unfold dict_get. by rewrite Hnone. }
  split; [reflexivity|]. split; [exact Hget|]. split.
  - destruct (send_final_report_sends chat t tp sessions s ac wp Hs Hac Hwp Htp)
      as (r & rest & Heq & _).
    exists (report_of s t ac wp), rest. rewrite Heq.
    split; [reflexivity|]. cbn [report_of r_score r_level].
    split; [exact Hx|]. by rewrite Hx.
  - intros chat' t' tp' sessions' s' r Hs' Hx' Hin.
    apply elem_of_sent_to in Hin as [k Hin].
    apply send_final_report_reports in Hin as (s'' & ac' & wp' & Hs'' & _ & _ & ->).
    rewrite Hs' in Hs''. injection Hs'' as <-.
    cbn [report_of r_level]. by rewrite Hx'.
Qed.

(** ** Aggregates over the store *)

Lemma length_filter_fmap {A B} (f : A -> B) (P : B -> Prop)
    `{!forall b, Decision (P b)} (l : list A) :
  length (filter P (f <$> l)) = length (filter (fun a => P (f a)) l).
Proof.
  induction l as [|a l IH]; [reflexivity|].
  rewrite fmap_cons, !filter_cons.
  destruct (decide (P (f a))); cbn [length]; by rewrite IH.
Qed.

Lemma size_map_filter (P : Z * UserSession -> Prop) `{!forall kv, Decision (P kv)}
    (sessions : gmap Z UserSession) :
  size (filter P sessions) = length (filter P (map_to_list sessions)).
Proof.
  rewrite <- length_map_to_list, map_filter_alt.
  rewrite map_to_list_to_map; [reflexivity|].
  eapply sublist_NoDup; [apply (NoDup_fst_map_to_list sessions)|].
  apply fmap_sublist, sublist_filter.
Qed.

(** The comprehension of [calculate_percentile] counts the sessions of
    the store whose score is strictly below [x]. *)
Lemma lower_scores_count (sessions : gmap Z UserSession) (x : Z) :
  sum ((fun _ => 1) <$> filter (fun s => s < x) (score <$> dict_values sessions)) =
  Z.of_nat (size (filter (fun kv : Z * UserSession => score kv.2 < x) sessions)).
Proof.
  rewrite sum_ones, size_map_filter. f_equal.
  unfold dict_values.
  rewrite length_filter_fmap, length_filter_fmap. reflexivity.
Qed.


(** ** Well-formed sessions *)

Lemma canonical_cases (a : string) :
  canonical a -> a = "Все" \/ a = "Мои контакты" \/ a = "Никто".
Proof.
  unfold canonical. intros H.
  repeat (apply elem_of_cons in H as [H|H]; [tauto|]).
  by apply elem_of_nil in H.
Qed.

Lemma canonical_accepted (a : string) :
  canonical a -> a ∈ ["Все"; "Мои контакты"; "Никто"; CANCEL].
Proof.
  intros Ha. destruct (canonical_cases a Ha) as [-> | [-> | ->] ];
    repeat first [apply list_elem_of_here | apply list_elem_of_further].
Qed.

Lemma canonical_points (a : string) :
  canonical a -> exists p, Config.POINTS !! a = Some p /\ 0 <= p <= 2.
Proof.
  intros H. destruct (canonical_cases a H) as [-> | [-> | ->] ].
  - exists 0. split; [reflexivity|lia].
  - exists 1. split; [reflexivity|lia].
  - exists 2. split; [reflexivity|lia].
Qed.

Lemma points_canonical (a : string) (p : Z) :
  Config.POINTS !! a = Some p -> canonical a.
Proof.
  intros H. apply elem_of_list_to_map_2 in H.
  unfold canonical.
  repeat (apply elem_of_cons in H as [H|H]; [inversion H; subst; set_solver|]).
  by apply elem_of_nil in H.
Qed.

Lemma canonical_risks (q : Question) (a : string) :
  q ∈ Config.QUESTIONS -> canonical a -> is_Some (q_risks q !! a).
Proof.
  intros Hq Ha. revert q Hq. apply Forall_forall.
  destruct (canonical_cases a Ha) as [-> | [-> | ->] ];
    repeat constructor; vm_compute; eauto.
Qed.

Lemma canonical_tally (a : string) :
  canonical a -> is_Some (answers_count0 !! a).
Proof.
  intros Ha. destruct (canonical_cases a Ha) as [-> | [-> | ->] ]; vm_compute; eauto.
Qed.

Lemma list_getitem_nonneg {A} (l : list A) (i : Z) :
  0 <= i ->
  list_getitem l i =
    match l !! Z.to_nat i with Some x => Ok x | None => Raise IndexError end.
Proof.
  intros Hi. unfold list_getitem.
  destruct (decide (i < 0)); [lia|].
  destruct (decide (i < 0)); [lia|]. reflexivity.
Qed.

Lemma list_getitem_in_range {A} (l : list A) (i : Z) :
  0 <= i < len l ->
  exists x, l !! Z.to_nat i = Some x /\ list_getitem l i = Ok x.
Proof.
  intros [Hlo Hhi]. unfold len in Hhi.
  destruct (lookup_lt_is_Some_2 l (Z.to_nat i)) as [x Hx]; [lia|].
  exists x. split; [exact Hx|].
  by rewrite list_getitem_nonneg, Hx.
Qed.

Lemma len_QUESTIONS : len Config.QUESTIONS = 5.
Proof. reflexivity. Qed.

Lemma session_inv_bounds (s : UserSession) :
  session_inv s -> 0 <= current_question s <= len Config.QUESTIONS.
Proof.
  intros [Hi _ Ha]. rewrite Hi. unfold len. split; [lia|].
  destruct (decide (length (answers s) ≤ length Config.QUESTIONS)%nat) as [|Hgt]; [lia|].
  destruct (lookup_lt_is_Some_2 (answers s) (length Config.QUESTIONS)) as [a Hl]; [lia|].
  destruct (Ha _ _ Hl) as (q & Hq & _).
  apply lookup_lt_Some in Hq. lia.
Qed.

Lemma init_ok (chat t : Z) (u f : string) :
  session_ok (Session.set_first_name (Session.set_username (Session.init chat t) u) f).
Proof.
  split; [split|]; cbn; try reflexivity.
  intros i a H. by rewrite lookup_nil in H.
Qed.

Lemma answered_inv (s : UserSession) (q : Question) (a : string) (p t : Z) :
  session_inv s ->
  Config.QUESTIONS !! Z.to_nat (current_question s) = Some q ->
  Config.POINTS !! a = Some p ->
  session_inv (answered s q a p t).
Proof.
  intros [Hi Hs Ha] Hq Hp. split; cbn.
  - rewrite Hi. unfold len. rewrite length_app. cbn. lia.
  - rewrite Hs, fmap_app. cbn. unfold sum. rewrite foldr_app. cbn.
    generalize (points <$> answers s). intros l.
    induction l as [|x l IH]; cbn; lia.
  - intros i r Hr. apply lookup_app_Some in Hr as [Hr|[Hlen Hr]].
    + by apply Ha.
    + apply list_lookup_singleton_Some in Hr as [Hz <-]. cbn.
      exists q. split; [|done].
      rewrite Hi in Hq. unfold len in Hq. rewrite Nat2Z.id in Hq.
      replace i with (length (answers s)) by lia. exact Hq.
Qed.

(** ** The loops of the report do not raise on a well-formed session *)

Lemma count_answers_ok (l : list AnswerRecord) (ac : gmap string Z) :
  (forall a, a ∈ l -> is_Some (ac !! answer a)) ->
  exists ac', count_answers l ac = Ok ac'.
Proof.
  revert ac. induction l as [|a l IH]; intros ac Hl; cbn [count_answers].
  - by exists ac.
  - destruct (Hl a) as [n Hn]; [left|].
    unfold dict_getitem. rewrite Hn. cbn [outcome_bind].
    apply IH. intros b Hb.
    destruct (decide (answer a = answer b)) as [<-|Hne].
    + rewrite lookup_insert_eq. eauto.
    + rewrite lookup_insert_ne by done. apply Hl. by right.
Qed.

Lemma collect_weak_points_ok (l : list AnswerRecord) (i : Z)
    (wp : list (Question * AnswerRecord)) :
  0 <= i -> i + len l <= len Config.QUESTIONS ->
  exists wp', collect_weak_points i l wp = Ok wp'.
Proof.
  revert i wp. induction l as [|a l IH]; intros i wp Hi Hlen; cbn [collect_weak_points].
  - by exists wp.
  - unfold len in Hlen. cbn [length] in Hlen.
    destruct (list_getitem_in_range Config.QUESTIONS i) as (q & _ & ->).
    { unfold len. lia. }
    cbn [outcome_bind]. apply IH; unfold len; lia.
Qed.

Lemma session_inv_canonical (s : UserSession) (a : AnswerRecord) :
  session_inv s -> a ∈ answers s -> canonical (answer a).
Proof.
  intros [_ _ Ha] Hin. apply list_elem_of_lookup in Hin as [i Hi].
  destruct (Ha _ _ Hi) as (q & _ & _ & Hp). by eapply points_canonical.
Qed.

Lemma report_loops_ok (s : UserSession) :
  session_inv s ->
  exists ac wp,
    count_answers (answers s) answers_count0 = Ok ac /\
    collect_weak_points 0 (answers s) [] = Ok wp.
Proof.
  intros Hinv.
  destruct (count_answers_ok (answers s) answers_count0) as [ac Hac].
  { intros a Ha. apply canonical_tally. by eapply session_inv_canonical. }
  destruct (collect_weak_points_ok (answers s) 0 []) as [wp Hwp]; [lia| |].
  { pose proof (session_inv_bounds s Hinv) as Hb.
    rewrite (inv_index s Hinv) in Hb. lia. }
  by exists ac, wp.
Qed.

(** ** One answer *)

Lemma ask_question_eq (chat : Z) (sessions : gmap Z UserSession)
    (s : UserSession) (q : Question) :
  sessions !! chat = Some s ->
  0 <= current_question s ->
  Config.QUESTIONS !! Z.to_nat (current_question s) = Some q ->
  ask_question chat None sessions =
    (Ok tt, sessions,
     [SendMessage chat
        (QuestionText (current_question s + 1) (len Config.QUESTIONS) (q_text q))
        create_keyboard]).
Proof.
  intros Hs H0 Hq. unfold ask_question. run_bot. rewrite Hs.
  unfold Session.is_completed.
  apply lookup_lt_Some in Hq as Hlt.
  rewrite bool_decide_eq_false_2 by (unfold len; lia).
  by rewrite list_getitem_nonneg, Hq.
Qed.

Lemma ask_question_absent (chat : Z) (sessions : gmap Z UserSession) :
  sessions !! chat = None -> ask_question chat None sessions = (Ok tt, sessions, []).
Proof. intros Hs. unfold ask_question. run_bot. by rewrite Hs. Qed.

Lemma handle_answer_eq (m : Message) (t : Z) (sessions : gmap Z UserSession)
    (s : UserSession) (q : Question) (p : Z) (risk : string) :
  sessions !! chat_id m = Some s ->
  text m ≠ CANCEL ->
  list_getitem Config.QUESTIONS (current_question s) = Ok q ->
  Config.POINTS !! text m = Some p ->
  q_risks q !! text m = Some risk ->
  handle_answer m t None sessions =
    (let chat := chat_id m in
     let s1 := Session.add_answer s (q_id q) (text m) p t in
     let s2 := answered s q (text m) p t in
     let pre := [SessionWrite chat s1;
                 SendMessage chat (ExplanationText (text m) risk (q_fix q))
                   remove_keyboard;
                 Sleep 1;
                 SessionWrite chat s2] in
     if Session.is_completed s2 then
       match send_final_report chat t None (<[chat := s2]> sessions) with
       | (Ok _, sessions', tr) =>
           (Ok tt, delete chat sessions', pre ++ tr ++ [SessionPop chat])
       | (Raise e, sessions', tr) => (Raise e, sessions', pre ++ tr)
       end
     else
       match ask_question chat None (<[chat := s2]> sessions) with
       | (r, sessions', tr) => (r, sessions', pre ++ tr)
       end).
Proof.
  intros Hs Hne Hq Hp Hrisk. unfold handle_answer, send_risk_explanation.
  run_bot. rewrite Hs.
  destruct (decide (text m = CANCEL)); [contradiction|].
  rewrite Hq. unfold dict_getitem. rewrite Hp, Hrisk.
  cbv beta iota zeta. rewrite insert_insert_eq.
  fold (answered s q (text m) p t).
  destruct (Session.is_completed (answered s q (text m) p t)).
  - destruct (send_final_report _ _ None _) as [[[u|e] S'] tr]; reflexivity.
  - destruct (ask_question _ None _) as [[r S'] tr]; reflexivity.
Qed.

Lemma send_final_report_ok (chat t : Z) (sessions : gmap Z UserSession)
    (s : UserSession) (ac : gmap string Z) (wp : list (Question * AnswerRecord))
    (mean : outcome float) :
  sessions !! chat = Some s ->
  count_answers (answers s) answers_count0 = Ok ac ->
  collect_weak_points 0 (answers s) [] = Ok wp ->
  calculate_average_score sessions = mean ->
  exists pct,
    calculate_percentile sessions (score s) = Ok pct /\
    send_final_report chat t None sessions =
      match mean with
      | Ok avg =>
          (Ok tt, sessions,
           [SendMessage chat (ReportText (report_of s t ac wp)) remove_keyboard;
            SendMessage chat (StatsText (started_today sessions t) avg pct) NoMarkup;
            LogInfo (CheckFinished chat (score s))])
      | Raise e =>
          (Raise e, sessions,
           [SendMessage chat (ReportText (report_of s t ac wp)) remove_keyboard])
      end.
Proof.
  intros Hs Hac Hwp <-.
  destruct (send_final_report_cases chat t sessions s Hs)
    as [(e & He & [Hr|Hr])|(ac' & wp' & pct & Hac' & Hwp' & Hpct & He)];
    [congruence|congruence|].
  rewrite Hac in Hac'. rewrite Hwp in Hwp'.
  injection Hac' as <-. injection Hwp' as <-. exists pct. split; [done|].
  by destruct (calculate_average_score sessions).
Qed.

(** ** Scores of well-formed sessions *)

Lemma points_range (k : string) (p : Z) :
  Config.POINTS !! k = Some p -> 0 <= p <= 2.
Proof.
  intros H. apply elem_of_list_to_map_2 in H.
  repeat (apply elem_of_cons in H as [H|H]; [inversion H; subst; lia|]).
  by apply elem_of_nil in H.
Qed.

Lemma sum_points_bounds (l : list AnswerRecord) :
  (forall a, a ∈ l -> Config.POINTS !! answer a = Some (points a)) ->
  0 <= sum (points <$> l) <= 2 * len l.
Proof.
  unfold len, sum. induction l as [|a l IH]; intros Hl; cbn; [lia|].
  pose proof (points_range _ _ (Hl a (list_elem_of_here _ _))) as Ha.
  assert (Hrest : 0 <= foldr Z.add 0 (points <$> l) <= 2 * Z.of_nat (length l)).
  { apply IH. intros b Hb. apply Hl. by right. }
  lia.
Qed.

Lemma session_inv_points (s : UserSession) (a : AnswerRecord) :
  session_inv s -> a ∈ answers s -> Config.POINTS !! answer a = Some (points a).
Proof.
  intros [_ _ Ha] Hin. apply list_elem_of_lookup in Hin as [i Hi].
  by destruct (Ha _ _ Hi) as (q & _ & _ & Hp).
Qed.

Lemma session_inv_score (s : UserSession) :
  session_inv s -> 0 <= score s <= 2 * current_question s.
Proof.
  intros Hinv. rewrite (inv_score s Hinv), (inv_index s Hinv).
  apply sum_points_bounds. intros a Ha. by apply (session_inv_points s).
Qed.

Lemma sum_scores_bounds (l : list UserSession) :
  Forall (fun s => 0 <= score s <= 10) l ->
  0 <= sum (score <$> l) <= 10 * Z.of_nat (length l).
Proof.
  unfold sum. induction 1 as [|s l Hs _ IH]; cbn; lia.
Qed.

(** The mean of a non-empty store whose scores lie between 0 and 10 is
    a float. *)
Lemma average_small (sessions : gmap Z UserSession) :
  sessions ≠ ∅ ->
  map_Forall (fun _ s => 0 <= score s <= 10) sessions ->
  calculate_average_score sessions =
    Ok (quotient (sum (score <$> dict_values sessions)) (Z.of_nat (size sessions))).
Proof.
  intros Hne Hall. apply average_nonempty; [done|].
  assert (Hl : Forall (fun s => 0 <= score s <= 10) (dict_values sessions)).
  { unfold dict_values. apply Forall_fmap, Forall_forall. intros [k s] Hks.
    apply elem_of_map_to_list in Hks. by apply (Hall k s). }
  pose proof (sum_scores_bounds _ Hl) as Hb.
  rewrite length_dict_values in Hb. lia.
Qed.

Lemma store_ok_scores (sessions : gmap Z UserSession) :
  store_ok sessions -> map_Forall (fun _ s => 0 <= score s <= 10) sessions.
Proof.
  intros HS k s Hks. destruct (HS k s Hks) as [Hinv Hlt].
  pose proof (session_inv_score s Hinv). rewrite len_QUESTIONS in Hlt. lia.
Qed.

Lemma mean_ok (sessions : gmap Z UserSession) (c : Z) (s : UserSession) :
  store_ok sessions -> session_inv s ->
  exists avg, calculate_average_score (<[c := s]> sessions) = Ok avg.
Proof.
  intros HS Hinv. rewrite average_small; [by eexists|apply insert_non_empty|].
  apply map_Forall_insert_2; [|by apply store_ok_scores].
  pose proof (session_inv_score s Hinv).
  pose proof (session_inv_bounds s Hinv) as Hb. rewrite len_QUESTIONS in Hb. lia.
Qed.

Lemma answer_lookups (s : UserSession) (a : string) :
  session_ok s -> canonical a ->
  exists q p risk,
    Config.QUESTIONS !! Z.to_nat (current_question s) = Some q /\
    list_getitem Config.QUESTIONS (current_question s) = Ok q /\
    Config.POINTS !! a = Some p /\
    q_risks q !! a = Some risk.
Proof.
  intros [Hinv Hlt] Ha.
  pose proof (session_inv_bounds s Hinv) as Hb.
  destruct (list_getitem_in_range Config.QUESTIONS (current_question s))
    as (q & Hq & Hget); [lia|].
  destruct (canonical_points a Ha) as (p & Hp & _).
  destruct (canonical_risks q a) as [risk Hrisk]; [|done|].
  { apply list_elem_of_lookup. eauto. }
  by exists q, p, risk.
Qed.

Lemma canonical_not_cancel (a : string) : canonical a -> a ≠ CANCEL.
Proof. intros Ha. by destruct (canonical_cases a Ha) as [-> | [-> | ->] ]. Qed.

(** An answer to a question that is not the last one. *)
Lemma handle_answer_next (m : Message) (t : Z) (sessions : gmap Z UserSession)
    (s : UserSession) (q : Question) (p : Z) (risk : string) :
  sessions !! chat_id m = Some s ->
  session_ok s ->
  Config.QUESTIONS !! Z.to_nat (current_question s) = Some q ->
  Config.POINTS !! text m = Some p ->
  q_risks q !! text m = Some risk ->
  current_question s + 1 < len Config.QUESTIONS ->
  exists q',
    Config.QUESTIONS !! Z.to_nat (current_question s + 1) = Some q' /\
    handle_answer m t None sessions =
      (Ok tt, <[chat_id m := answered s q (text m) p t]> sessions,
       [SessionWrite (chat_id m) (Session.add_answer s (q_id q) (text m) p t);
        SendMessage (chat_id m) (ExplanationText (text m) risk (q_fix q))
          remove_keyboard;
        Sleep 1;
        SessionWrite (chat_id m) (answered s q (text m) p t);
        SendMessage (chat_id m)
          (QuestionText (current_question s + 2) (len Config.QUESTIONS) (q_text q'))
          create_keyboard]).
Proof.
  intros Hs [Hinv Hlt] Hq Hp Hrisk Hnext.
  pose proof (session_inv_bounds s Hinv) as Hb.
  destruct (list_getitem_in_range Config.QUESTIONS (current_question s + 1))
    as (q' & Hq' & _); [lia|].
  exists q'. split; [exact Hq'|].
  rewrite (handle_answer_eq m t sessions s q p risk); try done.
  - cbv zeta. unfold Session.is_completed.
    rewrite bool_decide_eq_false_2 by (cbn; lia).
    rewrite (ask_question_eq _ _ (answered s q (text m) p t) q').
    + change (current_question (answered s q (text m) p t))
        with (current_question s + 1).
      replace (current_question s + 1 + 1) with (current_question s + 2) by lia.
      reflexivity.
    + apply lookup_insert_eq.
    + cbn. lia.
    + exact Hq'.
  - eapply canonical_not_cancel, points_canonical, Hp.
  - by rewrite list_getitem_nonneg, Hq by lia.
Qed.

(** The answer to the last question. *)
Lemma handle_answer_last (m : Message) (t : Z) (sessions : gmap Z UserSession)
    (s : UserSession) (q : Question) (p : Z) (risk : string) :
  sessions !! chat_id m = Some s ->
  session_ok s ->
  Config.QUESTIONS !! Z.to_nat (current_question s) = Some q ->
  Config.POINTS !! text m = Some p ->
  q_risks q !! text m = Some risk ->
  current_question s + 1 = len Config.QUESTIONS ->
  (exists avg, calculate_average_score
                 (<[chat_id m := answered s q (text m) p t]> sessions) = Ok avg) ->
  let s2 := answered s q (text m) p t in
  let full := <[chat_id m := s2]> sessions in
  exists ac wp avg pct,
    count_answers (answers s2) answers_count0 = Ok ac /\
    collect_weak_points 0 (answers s2) [] = Ok wp /\
    calculate_average_score full = Ok avg /\
    calculate_percentile full (score s2) = Ok pct /\
    handle_answer m t None sessions =
      (Ok tt, delete (chat_id m) sessions,
       [SessionWrite (chat_id m) (Session.add_answer s (q_id q) (text m) p t);
        SendMessage (chat_id m) (ExplanationText (text m) risk (q_fix q))
          remove_keyboard;
        Sleep 1;
        SessionWrite (chat_id m) s2;
        SendMessage (chat_id m) (ReportText (report_of s2 t ac wp)) remove_keyboard;
        SendMessage (chat_id m) (StatsText (started_today full t) avg pct) NoMarkup;
        LogInfo (CheckFinished (chat_id m) (score s2));
        SessionPop (chat_id m)]).
Proof.
  intros Hs [Hinv Hlt] Hq Hp Hrisk Hlast [avg Havg] s2 full.
  pose proof (session_inv_bounds s Hinv) as Hb.
  assert (Hinv2 : session_inv s2) by by apply answered_inv.
  destruct (report_loops_ok s2 Hinv2) as (ac & wp & Hac & Hwp).
  destruct (send_final_report_ok (chat_id m) t full s2 ac wp (Ok avg))
    as (pct & Hpct & Hrep); try done.
  { apply lookup_insert_eq. }
  exists ac, wp, avg, pct. repeat (split; [done|]).
  rewrite (handle_answer_eq m t sessions s q p risk); try done.
  - cbv zeta. unfold Session.is_completed.
    rewrite bool_decide_eq_true_2 by (cbn; lia).
    fold s2 full. rewrite Hrep. unfold full. by rewrite delete_insert_eq.
  - eapply canonical_not_cancel, points_canonical, Hp.
  - by rewrite list_getitem_nonneg, Hq by lia.
Qed.


(** The answer to the last question when the mean of the scores is too
    large for a float: the report is sent, the statistics are not, and
    the session stays in the store. *)
Lemma handle_answer_last_overflow (m : Message) (t : Z)
    (sessions : gmap Z UserSession)
    (s : UserSession) (q : Question) (p : Z) (risk : string) (e : exn) :
  sessions !! chat_id m = Some s ->
  session_ok s ->
  Config.QUESTIONS !! Z.to_nat (current_question s) = Some q ->
  Config.POINTS !! text m = Some p ->
  q_risks q !! text m = Some risk ->
  current_question s + 1 = len Config.QUESTIONS ->
  calculate_average_score (<[chat_id m := answered s q (text m) p t]> sessions)
    = Raise e ->
  let s2 := answered s q (text m) p t in
  exists ac wp,
    count_answers (answers s2) answers_count0 = Ok ac /\
    collect_weak_points 0 (answers s2) [] = Ok wp /\
    handle_answer m t None sessions =
      (Raise e, <[chat_id m := s2]> sessions,
       [SessionWrite (chat_id m) (Session.add_answer s (q_id q) (text m) p t);
        SendMessage (chat_id m) (ExplanationText (text m) risk (q_fix q))
          remove_keyboard;
        Sleep 1;
        SessionWrite (chat_id m) s2;
        SendMessage (chat_id m) (ReportText (report_of s2 t ac wp)) remove_keyboard]).
Proof.
  intros Hs [Hinv Hlt] Hq Hp Hrisk Hlast Havg s2.
  pose proof (session_inv_bounds s Hinv) as Hb.
  assert (Hinv2 : session_inv s2) by by apply answered_inv.
  destruct (report_loops_ok s2 Hinv2) as (ac & wp & Hac & Hwp).
  destruct (send_final_report_ok (chat_id m) t (<[chat_id m := s2]> sessions)
              s2 ac wp (Raise e))
    as (pct & Hpct & Hrep); try done.
  { apply lookup_insert_eq. }
  exists ac, wp. repeat (split; [done|]).
  rewrite (handle_answer_eq m t sessions s q p risk); try done.
  - cbv zeta. unfold Session.is_completed.
    rewrite bool_decide_eq_true_2 by (cbn; lia).
    fold s2. by rewrite Hrep.
  - eapply canonical_not_cancel, points_canonical, Hp.
  - by rewrite list_getitem_nonneg, Hq by lia.
Qed.

(** ** One answer, whatever the transport does *)

Lemma average_in_range (sessions : gmap Z UserSession) :
  scores_in_float_range sessions ->
  exists avg, calculate_average_score sessions = Ok avg.
Proof.
  intros Hall. unfold calculate_average_score.
  destruct (decide (size sessions = 0%nat)) as [|Hne]; [by eexists|].
  rewrite int_truediv_ok; [by eexists|lia|].
  assert (Hl : Forall (fun s => Z.abs (score s) < OVERFLOW_AT) (dict_values sessions)).
  { unfold dict_values. apply Forall_fmap, Forall_forall. intros [k s] Hks.
    apply elem_of_map_to_list in Hks. by apply (Hall k s). }
  rewrite <- length_dict_values in *.
  destruct (dict_values sessions) as [|s0 l]; [done|].
  clear Hne. revert s0 Hl. induction l as [|s1 l IH]; intros s0 Hl.
  - apply Forall_cons in Hl as [H0 _]. cbn. lia.
  - apply Forall_cons in Hl as [H0 Hl]. specialize (IH s1 Hl).
    cbn [fmap list_fmap sum foldr length] in *. unfold sum in *. lia.
Qed.

Lemma session_ok_wf (s : UserSession) : session_ok s -> session_wf s.
Proof.
  intros [Hinv Hlt]. pose proof (session_inv_bounds s Hinv) as Hb.
  split; [apply Hinv| |lia| |done].
  - intros a Ha. by apply (session_inv_points s).
  - rewrite (inv_index s Hinv). lia.
Qed.

Lemma store_ok_wf (sessions : gmap Z UserSession) : store_ok sessions -> store_wf sessions.
Proof. intros HS c s Hs. apply session_ok_wf, (HS c s Hs). Qed.

(** ** Computations that only read the store *)

Lemma read_only_bind {A B} (m : Bot A) (k : A -> Bot B) :
  read_only m -> (forall a, read_only (k a)) -> read_only (bot_bind m k).
Proof.
  intros Hm Hk tp S. specialize (Hm tp S). unfold bot_bind, store_of in *.
  destruct (m tp S) as [[[a|e] S1] tr1]; cbn [fst snd] in *; [|done].
  specialize (Hk a (spend (calls tr1) tp) S1). unfold store_of in Hk.
  destruct (k a _ S1) as [[r S2] tr2]; cbn [fst snd] in *.
  congruence.
Qed.

Lemma read_only_const {A} (o : outcome A) (tr : list Effect) :
  read_only (fun _ sessions => (o, sessions, tr)).
Proof. by intros tp S. Qed.

Lemma read_only_transport_call (e : Effect) : read_only (transport_call e).
Proof. intros [[|k]|] S; reflexivity. Qed.

Ltac read_only_step :=
  cbv zeta;
  first
    [ apply read_only_bind; [|intros ?]
    | apply read_only_transport_call
    | apply read_only_const
    | apply (read_only_const (Ok tt) [_])
    | intros ? ?; reflexivity ].

Lemma read_only_ask_question (c : Z) : read_only (ask_question c).
Proof.
  unfold ask_question. read_only_step; [read_only_step|].
  destruct a as [s|]; [|read_only_step].
  destruct (Session.is_completed s); repeat read_only_step.
Qed.

Lemma read_only_send_final_report (c t : Z) : read_only (send_final_report c t).
Proof.
  unfold send_final_report. read_only_step; [read_only_step|].
  destruct a as [s|]; repeat read_only_step.
Qed.

Lemma read_only_start_check_callback (c : CallbackQuery) :
  read_only (start_check_callback c).
Proof.
  unfold start_check_callback. read_only_step; [read_only_step|].
  destruct a as [s|]; [|read_only_step].
  read_only_step; [read_only_step|apply read_only_ask_question].
Qed.

Lemma read_only_handle_stats (m : Message) (t : Z) : read_only (handle_stats m t).
Proof. unfold handle_stats. destruct (decide _); repeat read_only_step. Qed.

Lemma dispatch_read_only (u : Update) (env : Env) (sessions : gmap Z UserSession) :
  is_start u = false -> is_answer u = false ->
  store_of (dispatch u env sessions) = sessions.
Proof.
  intros Hstart Hanswer.
  destruct u as [m|c]; unfold dispatch; cbn [is_start is_answer] in *.
  - rewrite Hstart in *. cbn [negb andb] in Hanswer. rewrite Hanswer.
    destruct (is_command m ["stats"]); [apply read_only_handle_stats|].
    destruct (is_command m ["version"]); apply read_only_transport_call.
  - destruct (decide _); [apply read_only_start_check_callback|reflexivity].
Qed.

(** ** The steps of [handle_answer] *)

Lemma answer_lookups_at (i : Z) (a : string) :
  0 <= i < len Config.QUESTIONS -> canonical a ->
  exists q p risk,
    Config.QUESTIONS !! Z.to_nat i = Some q /\
    list_getitem Config.QUESTIONS i = Ok q /\
    Config.POINTS !! a = Some p /\
    q_risks q !! a = Some risk.
Proof.
  intros Hi Ha.
  destruct (list_getitem_in_range Config.QUESTIONS i) as (q & Hq & Hget); [lia|].
  destruct (canonical_points a Ha) as (p & Hp & _).
  destruct (canonical_risks q a) as [risk Hrisk]; [|done|].
  { apply list_elem_of_lookup. eauto. }
  by exists q, p, risk.
Qed.

Lemma handle_answer_absent_any (m : Message) (t : Z) (tp : Transport)
    (sessions : gmap Z UserSession) :
  sessions !! chat_id m = None ->
  handle_answer m t tp sessions =
    match tp with
    | Some O => (Raise ApiTelegramException, sessions, [])
    | _ => (Ok tt, sessions, [SendMessage (chat_id m) StartText NoMarkup])
    end.
Proof.
  intros Hs. destruct tp as [[|k]|]; unfold handle_answer; run_bot; by rewrite Hs.
Qed.

Lemma handle_answer_cancel_lost (m : Message) (t : Z)
    (sessions : gmap Z UserSession) (s : UserSession) :
  sessions !! chat_id m = Some s ->
  text m = CANCEL ->
  handle_answer m t (Some 0%nat) sessions = (Raise ApiTelegramException, sessions, []).
Proof.
  intros Hs Hc. unfold handle_answer. run_bot. rewrite Hs.
  by rewrite decide_True.
Qed.

(** An answer for a session whose index is outside the catalog, or with
    a text that is no key of the points: the lookup raises before
    anything is written or sent. *)
Lemma handle_answer_lookup_raises (m : Message) (t : Z) (tp : Transport)
    (sessions : gmap Z UserSession) (s : UserSession) (e : exn) :
  sessions !! chat_id m = Some s ->
  text m ≠ CANCEL ->
  outcome_bind (list_getitem Config.QUESTIONS (current_question s))
    (fun _ => dict_getitem Config.POINTS (text m)) = Raise e ->
  handle_answer m t tp sessions = (Raise e, sessions, []).
Proof.
  intros Hs Hne He. unfold handle_answer. run_bot. rewrite Hs.
  destruct (decide (text m = CANCEL)); [contradiction|].
  destruct (list_getitem _ _) as [q|e1]; cbn [outcome_bind] in He;
    [by rewrite He|].
  by injection He as ->.
Qed.

(** A recorded answer: the session with the new record is written, the
    explanation is sent, the session with the advanced index is written;
    then the report is sent and the session popped, or the next question
    is asked.  When the explanation is not delivered, the handler ends
    after the first write. *)
Lemma handle_answer_any (m : Message) (t : Z) (tp : Transport)
    (sessions : gmap Z UserSession)
    (s : UserSession) (q : Question) (p : Z) (risk : string) :
  sessions !! chat_id m = Some s ->
  text m ≠ CANCEL ->
  list_getitem Config.QUESTIONS (current_question s) = Ok q ->
  Config.POINTS !! text m = Some p ->
  q_risks q !! text m = Some risk ->
  let chat := chat_id m in
  let s1 := Session.add_answer s (q_id q) (text m) p t in
  let s2 := answered s q (text m) p t in
  handle_answer m t tp sessions =
    match tp with
    | Some O =>
        (Raise ApiTelegramException, <[chat := s1]> sessions, [SessionWrite chat s1])
    | _ =>
        let rest :=
          (if Session.is_completed s2
           then bot_bind (send_final_report chat t) (fun _ => sessions_pop chat)
           else ask_question chat) (spend 1 tp) (<[chat := s2]> sessions) in
        (result_of rest, store_of rest,
         [SessionWrite chat s1;
          SendMessage chat (ExplanationText (text m) risk (q_fix q)) remove_keyboard;
          Sleep 1;
          SessionWrite chat s2] ++ trace_of rest)
    end.
Proof.
  intros Hs Hne Hq Hp Hrisk.
  destruct tp as [[|k]|]; unfold handle_answer, send_risk_explanation;
    run_bot; rewrite Hs;
    (destruct (decide (text m = CANCEL)); [contradiction|]);
    rewrite Hq; unfold dict_getitem; rewrite Hp, Hrisk;
    cbv beta iota zeta; budget; [reflexivity| |];
    rewrite insert_insert_eq;
    fold (answered s q (text m) p t);
    destruct (Session.is_completed (answered s q (text m) p t)).
  - destruct (send_final_report _ _ _ _) as [[[u|e] S'] tr]; reflexivity.
  - destruct (ask_question _ _ _) as [[r S'] tr]; reflexivity.
  - destruct (send_final_report _ _ _ _) as [[[u|e] S'] tr]; reflexivity.
  - destruct (ask_question _ _ _) as [[r S'] tr]; reflexivity.
Qed.

Lemma ask_question_any (chat : Z) (tp : Transport) (sessions : gmap Z UserSession)
    (s : UserSession) (q : Question) :
  sessions !! chat = Some s ->
  0 <= current_question s ->
  Config.QUESTIONS !! Z.to_nat (current_question s) = Some q ->
  ask_question chat tp sessions =
    match tp with
    | Some O => (Raise ApiTelegramException, sessions, [])
    | _ =>
        (Ok tt, sessions,
         [SendMessage chat
            (QuestionText (current_question s + 1) (len Config.QUESTIONS) (q_text q))
            create_keyboard])
    end.
Proof.
  intros Hs H0 Hq. apply lookup_lt_Some in Hq as Hlt.
  destruct tp as [[|k]|]; unfold ask_question; run_bot; rewrite Hs;
    unfold Session.is_completed;
    rewrite bool_decide_eq_false_2 by (unfold len; lia);
    by rewrite list_getitem_nonneg, Hq.
Qed.

(** What [send_final_report] does for a session that passes both loops,
    in a store whose mean is a float: the report, the statistics and the
    log line, as far as the transport delivers. *)
Lemma send_final_report_any (chat t : Z) (tp : Transport)
    (sessions : gmap Z UserSession) (s : UserSession)
    (ac : gmap string Z) (wp : list (Question * AnswerRecord)) (avg pct : float) :
  sessions !! chat = Some s ->
  count_answers (answers s) answers_count0 = Ok ac ->
  collect_weak_points 0 (answers s) [] = Ok wp ->
  calculate_average_score sessions = Ok avg ->
  calculate_percentile sessions (score s) = Ok pct ->
  send_final_report chat t tp sessions =
    match tp with
    | Some O => (Raise ApiTelegramException, sessions, [])
    | Some (S O) =>
        (Raise ApiTelegramException, sessions,
         [SendMessage chat (ReportText (report_of s t ac wp)) remove_keyboard])
    | _ =>
        (Ok tt, sessions,
         [SendMessage chat (ReportText (report_of s t ac wp)) remove_keyboard;
          SendMessage chat (StatsText (started_today sessions t) avg pct) NoMarkup;
          LogInfo (CheckFinished chat (score s))])
    end.
Proof.
  intros Hs Hac Hwp Havg Hpct.
  destruct tp as [[|[|k]]|]; unfold send_final_report; run_bot;
    rewrite Hs, LEVELS_zero, Hac, Hwp; cbv beta iota zeta;
    rewrite ?Havg, ?Hpct; reflexivity.
Qed.

(** ** The invariant of the store *)

Lemma store_ok_empty : store_ok ∅.
Proof. apply map_Forall_empty. Qed.

Lemma store_ok_insert (sessions : gmap Z UserSession) (chat : Z) (s : UserSession) :
  store_ok sessions -> session_ok s -> store_ok (<[chat := s]> sessions).
Proof. intros HS Hs. by apply map_Forall_insert_2. Qed.

Lemma store_ok_delete (sessions : gmap Z UserSession) (chat : Z) :
  store_ok sessions -> store_ok (delete chat sessions).
Proof. apply map_Forall_delete. Qed.

Lemma text_filter_cases (a : string) :
  a ∈ ["Все"; "Мои контакты"; "Никто"; CANCEL] -> canonical a \/ a = CANCEL.
Proof.
  intros H. unfold canonical.
  repeat (apply elem_of_cons in H as [->|H]; [set_solver|]).
  by apply elem_of_nil in H.
Qed.

Lemma handle_answer_ok (m : Message) (t : Z) (sessions : gmap Z UserSession) :
  store_ok sessions ->
  text m ∈ ["Все"; "Мои контакты"; "Никто"; CANCEL] ->
  result_of (handle_answer m t None sessions) = Ok tt /\
  store_ok (store_of (handle_answer m t None sessions)).
Proof.
  intros HS Htext.
  destruct (sessions !! chat_id m) as [s|] eqn:Hs.
  - pose proof (HS _ _ Hs) as Hok.
    destruct (text_filter_cases _ Htext) as [Hcan|Hcancel].
    + destruct (answer_lookups s (text m) Hok Hcan)
        as (q & p & risk & Hq & _ & Hp & Hrisk).
      destruct (decide (current_question s + 1 < len Config.QUESTIONS)) as [Hlt|Hge].
      * destruct (handle_answer_next m t sessions s q p risk)
          as (q' & _ & ->); try done.
        split; [reflexivity|]. apply store_ok_insert; [done|].
        split; [apply answered_inv; try done; apply Hok|exact Hlt].
      * assert (Hlast : current_question s + 1 = len Config.QUESTIONS)
          by (destruct Hok as [_ Hlt]; lia).
        assert (Hmean : exists avg,
                  calculate_average_score
                    (<[chat_id m := answered s q (text m) p t]> sessions) = Ok avg).
        { apply mean_ok; [done|]. apply answered_inv; try done. apply Hok. }
        destruct (handle_answer_last m t sessions s q p risk
                    Hs Hok Hq Hp Hrisk Hlast Hmean)
          as (ac & wp & avg & pct & _ & _ & _ & _ & ->).
        split; [reflexivity|]. by apply store_ok_delete.
    + rewrite (handle_answer_cancel m t sessions s Hs Hcancel).
      split; [reflexivity|]. by apply store_ok_delete.
  - rewrite (handle_answer_absent m t sessions Hs). by split.
Qed.

Lemma start_check_callback_ok (c : CallbackQuery) (sessions : gmap Z UserSession) :
  store_ok sessions ->
  result_of (start_check_callback c None sessions) = Ok tt /\
  store_of (start_check_callback c None sessions) = sessions.
Proof.
  intros HS. unfold start_check_callback. run_bot.
  destruct (sessions !! call_chat_id c) as [s|] eqn:Hs; [|by split].
  destruct (HS _ _ Hs) as [Hinv Hlt].
  pose proof (session_inv_bounds s Hinv) as Hb.
  destruct (list_getitem_in_range Config.QUESTIONS (current_question s))
    as (q & Hq & _); [lia|].
  rewrite (ask_question_eq _ _ s q); try done. lia.
Qed.

(** With a transport that delivers, every handler returns normally on a
    well-formed store and leaves a well-formed store. *)
Lemma dispatch_ok (u : Update) (env : Env) (sessions : gmap Z UserSession) :
  transport env = None ->
  store_ok sessions ->
  result_of (dispatch u env sessions) = Ok tt /\
  store_ok (store_of (dispatch u env sessions)).
Proof.
  intros Htp HS. destruct u as [m|c]; unfold dispatch; rewrite Htp; cbv zeta.
  - destruct (is_command m ["start"; "help"]).
    { rewrite handle_start_eq. cbv zeta. split; [reflexivity|].
      apply store_ok_insert; [done|apply init_ok]. }
    destruct (bool_decide _) eqn:Htext.
    { apply bool_decide_eq_true in Htext. by apply handle_answer_ok. }
    destruct (is_command m ["stats"]).
    { unfold handle_stats, ADMIN_IDS.
      destruct (decide (tg_id (from_user m) ∈ [])) as [Hin|_]; [|by split].
      by apply elem_of_nil in Hin. }
    destruct (is_command m ["version"]); by split.
  - destruct (decide (call_data c = "start_check")); [|by split].
    destruct (start_check_callback_ok c sessions HS) as [-> ->]. by split.
Qed.

Lemma run_ok (updates : list (Update * Env)) (sessions : gmap Z UserSession) :
  delivered updates -> store_ok sessions -> store_ok (run updates sessions).1.
Proof.
  revert sessions. induction updates as [|[u env] updates IH]; intros sessions Hd HS.
  - exact HS.
  - apply Forall_cons in Hd as [Hu Hd]. cbn [run fst]. apply IH; [done|].
    by apply dispatch_ok.
Qed.

(** ** What holds of the store whatever the transport does *)

Lemma sum_points_snoc (l : list AnswerRecord) (a : AnswerRecord) :
  sum (points <$> l ++ [a]) = sum (points <$> l) + points a.
Proof. unfold sum. induction l as [|y l IH]; cbn in *; lia. Qed.

Lemma add_answer_wf (s : UserSession) (qid a : string) (p t : Z) :
  session_wf s -> Config.POINTS !! a = Some p ->
  session_wf (Session.add_answer s qid a p t).
Proof.
  intros [Hsc Hpt Hi Hb Hsy] Hp.
  split; cbn [Session.add_answer score answers current_question].
  - by rewrite Hsc, sum_points_snoc.
  - intros r Hr. apply elem_of_app in Hr as [Hr|Hr]; [by apply Hpt|].
    apply list_elem_of_singleton in Hr as ->. exact Hp.
  - exact Hi.
  - unfold len in *. rewrite length_app. cbn [length]. lia.
  - unfold len in *. rewrite length_app. cbn [length]. lia.
Qed.

Lemma answered_wf (s : UserSession) (q : Question) (a : string) (p t : Z) :
  session_wf s ->
  Config.QUESTIONS !! Z.to_nat (current_question s) = Some q ->
  Config.POINTS !! a = Some p ->
  session_wf (answered s q a p t).
Proof.
  intros [Hsc Hpt Hi Hb Hsy] Hq Hp. apply lookup_lt_Some in Hq as Hlt.
  split; unfold answered;
    cbn [Session.add_answer Session.incr_current_question score answers
         current_question].
  - by rewrite Hsc, sum_points_snoc.
  - intros r Hr. apply elem_of_app in Hr as [Hr|Hr]; [by apply Hpt|].
    apply list_elem_of_singleton in Hr as ->. exact Hp.
  - unfold len in *. lia.
  - unfold len in *. rewrite length_app. cbn [length]. lia.
  - intros Heq. apply answered_inv; [apply Hsy|done|done].
    unfold len in *. rewrite length_app in Heq. cbn [length] in Heq. lia.
Qed.

Lemma list_getitem_elem {A} (l : list A) (i : Z) (x : A) :
  list_getitem l i = Ok x -> x ∈ l.
Proof.
  unfold list_getitem. cbv zeta. destruct (decide _); [done|].
  destruct (l !! _) as [y|] eqn:Hy; [|done].
  intros [= <-]. apply list_elem_of_lookup. eauto.
Qed.

(** The store an answer leaves, whatever the transport does and
    whatever the store was: the store as it was, the store without the
    session of the chat, or the store in which this session has one more
    record, with or without its index advanced. *)
Lemma handle_answer_store (m : Message) (t : Z) (tp : Transport)
    (sessions : gmap Z UserSession) (s : UserSession) :
  sessions !! chat_id m = Some s ->
  store_of (handle_answer m t tp sessions) = sessions \/
  store_of (handle_answer m t tp sessions) = delete (chat_id m) sessions \/
  exists q p,
    list_getitem Config.QUESTIONS (current_question s) = Ok q /\
    Config.POINTS !! text m = Some p /\
    (store_of (handle_answer m t tp sessions) =
       <[chat_id m := Session.add_answer s (q_id q) (text m) p t]> sessions \/
     store_of (handle_answer m t tp sessions) =
       <[chat_id m := answered s q (text m) p t]> sessions).
Proof.
  intros Hs.
  destruct (decide (text m = CANCEL)) as [Hc|Hne].
  { destruct (decide (tp = Some 0%nat)) as [->|Htp].
    - rewrite (handle_answer_cancel_lost m t sessions s Hs Hc). by left.
    - rewrite (handle_answer_cancel_any m t tp sessions s Hs Hc Htp).
      right. by left. }
  destruct (list_getitem Config.QUESTIONS (current_question s)) as [q|e] eqn:Hq.
  2:{ rewrite (handle_answer_lookup_raises m t tp sessions s e Hs Hne);
        [by left|by rewrite Hq]. }
  destruct (Config.POINTS !! text m) as [p|] eqn:Hp.
  2:{ rewrite (handle_answer_lookup_raises m t tp sessions s KeyError Hs Hne);
        [by left|]. rewrite Hq. cbn [outcome_bind]. unfold dict_getitem.
      by rewrite Hp. }
  destruct (canonical_risks q (text m)) as [risk Hrisk].
  { by eapply list_getitem_elem. }
  { by eapply points_canonical. }
  rewrite (handle_answer_any m t tp sessions s q p risk Hs Hne Hq Hp Hrisk).
  cbv zeta.
  assert (Hrest : forall tp',
    let rest :=
      (if Session.is_completed (answered s q (text m) p t)
       then bot_bind (send_final_report (chat_id m) t)
              (fun _ => sessions_pop (chat_id m))
       else ask_question (chat_id m)) tp'
        (<[chat_id m := answered s q (text m) p t]> sessions) in
    store_of rest = <[chat_id m := answered s q (text m) p t]> sessions \/
    store_of rest = delete (chat_id m) sessions).
  { intros tp'. cbv zeta. destruct (Session.is_completed _).
    - pose proof (read_only_send_final_report (chat_id m) t tp'
                    (<[chat_id m := answered s q (text m) p t]> sessions)) as Hro.
      unfold bot_bind, sessions_pop, store_of in *.
      destruct (send_final_report _ _ _ _) as [[[u|e] S'] tr];
        cbn [fst snd] in *; subst S'; [right|by left].
      apply delete_insert_eq.
    - left. apply read_only_ask_question. }
  destruct tp as [[|k]|].
  - right; right. exists q, p. repeat (split; [done|]). by left.
  - destruct (Hrest (spend 1 (Some (S k)))) as [Hr|Hr].
    + right; right. exists q, p. repeat (split; [done|]). by right.
    + right; by left.
  - destruct (Hrest (spend 1 None)) as [Hr|Hr].
    + right; right. exists q, p. repeat (split; [done|]). by right.
    + right; by left.
Qed.

Lemma handle_answer_wf (m : Message) (t : Z) (tp : Transport)
    (sessions : gmap Z UserSession) :
  store_wf sessions -> store_wf (store_of (handle_answer m t tp sessions)).
Proof.
  intros HS.
  destruct (sessions !! chat_id m) as [s|] eqn:Hs.
  2:{ rewrite (handle_answer_absent_any m t tp sessions Hs).
      by destruct tp as [[|k]|]. }
  pose proof (HS _ _ Hs) as Hwf.
  destruct (handle_answer_store m t tp sessions s Hs)
    as [-> | [-> | (q & p & Hq & Hp & [-> | ->])]].
  - done.
  - by apply map_Forall_delete.
  - apply map_Forall_insert_2; [|done]. by apply add_answer_wf.
  - apply map_Forall_insert_2; [|done]. apply answered_wf; [done| |done].
    pose proof (wf_index s Hwf) as Hi.
    rewrite list_getitem_nonneg in Hq by lia.
    by destruct (Config.QUESTIONS !! Z.to_nat (current_question s)) as [q'|];
      [injection Hq as ->|].
Qed.

Lemma dispatch_wf (u : Update) (env : Env) (sessions : gmap Z UserSession) :
  store_wf sessions -> store_wf (store_of (dispatch u env sessions)).
Proof.
  intros HS.
  destruct (is_start u) eqn:Hstart.
  { destruct u as [m|c]; [|discriminate]. cbn [is_start] in Hstart.
    unfold dispatch. rewrite Hstart, handle_start_any. cbv zeta.
    apply map_Forall_insert_2; [|done]. apply session_ok_wf, init_ok. }
  destruct (is_answer u) eqn:Hanswer.
  { destruct u as [m|c]; [|discriminate]. cbn [is_start is_answer] in *.
    rewrite Hstart in Hanswer. cbn [negb andb] in Hanswer.
    unfold dispatch. rewrite Hstart, Hanswer. by apply handle_answer_wf. }
  by rewrite dispatch_read_only.
Qed.

Lemma run_wf (updates : list (Update * Env)) (sessions : gmap Z UserSession) :
  store_wf sessions -> store_wf (run updates sessions).1.
Proof.
  revert sessions. induction updates as [|[u env] updates IH]; intros sessions HS.
  - exact HS.
  - cbn [run fst]. apply IH. by apply dispatch_wf.
Qed.

Lemma store_wf_empty : store_wf ∅.
Proof. apply map_Forall_empty. Qed.



(** ** The index of a stored session and the catalog *)

Lemma after_answer_result (chat t : Z) (tp : Transport)
    (sessions : gmap Z UserSession) (s : UserSession) :
  sessions !! chat = Some s ->
  session_inv s ->
  (exists avg, calculate_average_score sessions = Ok avg) ->
  let rest :=
    (if Session.is_completed s
     then bot_bind (send_final_report chat t) (fun _ => sessions_pop chat)
     else ask_question chat) tp sessions in
  result_of rest = Ok tt \/ result_of rest = Raise ApiTelegramException.
Proof.
  intros Hs Hinv [avg Havg]. cbv zeta.
  pose proof (session_inv_bounds s Hinv) as Hb.
  unfold Session.is_completed. destruct (bool_decide _) eqn:Hc.
  - destruct (report_loops_ok s Hinv) as (ac & wp & Hac & Hwp).
    destruct (percentile_returns sessions (score s)) as [pct Hpct].
    unfold bot_bind, sessions_pop.
    rewrite (send_final_report_any chat t tp sessions s ac wp avg pct) by done.
    destruct tp as [[|[|k]]|]; cbn; auto.
  - apply bool_decide_eq_false in Hc.
    destruct (list_getitem_in_range Config.QUESTIONS (current_question s))
      as (q & Hq & _); [lia|].
    rewrite (ask_question_any chat tp sessions s q) by (done || lia).
    destruct tp as [[|k]|]; cbn; auto.
Qed.

(** On a well-formed store an answer is handled to its end, unless the
    transport raises. *)
Lemma handle_answer_returns (m : Message) (t : Z) (tp : Transport)
    (sessions : gmap Z UserSession) :
  store_ok sessions ->
  text m ∈ ["Все"; "Мои контакты"; "Никто"; CANCEL] ->
  result_of (handle_answer m t tp sessions) = Ok tt \/
  result_of (handle_answer m t tp sessions) = Raise ApiTelegramException.
Proof.
  intros HS Htext.
  destruct (sessions !! chat_id m) as [s|] eqn:Hs.
  2:{ rewrite (handle_answer_absent_any m t tp sessions Hs).
      destruct tp as [[|k]|]; cbn; auto. }
  pose proof (HS _ _ Hs) as Hok.
  destruct (text_filter_cases _ Htext) as [Hcan|Hcancel].
  2:{ destruct (decide (tp = Some 0%nat)) as [->|Htp].
      - rewrite (handle_answer_cancel_lost m t sessions s Hs Hcancel). by right.
      - rewrite (handle_answer_cancel_any m t tp sessions s Hs Hcancel Htp).
        by left. }
  destruct (answer_lookups s (text m) Hok Hcan)
    as (q & p & risk & Hq & Hget & Hp & Hrisk).
  rewrite (handle_answer_any m t tp sessions s q p risk Hs
             (canonical_not_cancel _ Hcan) Hget Hp Hrisk).
  cbv zeta.
  assert (Hinv2 : session_inv (answered s q (text m) p t))
    by (apply answered_inv; try done; apply Hok).
  assert (Hrest : forall tp',
    let rest :=
      (if Session.is_completed (answered s q (text m) p t)
       then bot_bind (send_final_report (chat_id m) t)
              (fun _ => sessions_pop (chat_id m))
       else ask_question (chat_id m)) tp'
        (<[chat_id m := answered s q (text m) p t]> sessions) in
    result_of rest = Ok tt \/ result_of rest = Raise ApiTelegramException).
  { intros tp'. apply after_answer_result; [apply lookup_insert_eq|done|].
    by apply mean_ok. }
  destruct tp as [[|k]|]; [by right| |].
  - apply (Hrest (spend 1 (Some (S k)))).
  - apply (Hrest (spend 1 None)).
Qed.




(** ** A whole quiz *)

Lemma dispatch_answer (chat : Z) (user : User) (te : string * Env)
    (sessions : gmap Z UserSession) :
  canonical te.1 ->
  dispatch (answer_update chat user te).1 (answer_update chat user te).2 sessions =
  handle_answer {| chat_id := chat; from_user := user; text := te.1; command := None |}
    (now te.2) (transport te.2) sessions.
Proof.
  intros Hcan. unfold answer_update, dispatch, is_command. cbn [fst snd command text].
  rewrite bool_decide_eq_true_2; [reflexivity|].
  by apply canonical_accepted.
Qed.

Lemma scores_in_float_range_insert (sessions : gmap Z UserSession) (c : Z)
    (s : UserSession) :
  scores_in_float_range sessions -> session_inv s ->
  scores_in_float_range (<[c := s]> sessions).
Proof.
  intros HS Hinv. apply map_Forall_insert_2; [|done].
  pose proof (session_inv_score s Hinv) as Hsc.
  pose proof (session_inv_bounds s Hinv) as Hb. rewrite len_QUESTIONS in Hb.
  pose proof OVERFLOW_AT_large. lia.
Qed.


(** The answers that take a well-formed session to the end of the
    catalog, all delivered: the report is sent once, whatever the other
    sessions of the store; the session is popped when the mean of the
    scores is a float. *)
Lemma quiz_run (chat : Z) (user : User) (tes : list (string * Env)) :
  forall (sessions : gmap Z UserSession) (s : UserSession),
    sessions !! chat = Some s ->
    session_ok s ->
    Forall (fun te => canonical te.1) tes ->
    Forall (fun te => transport te.2 = None) tes ->
    current_question s + len tes = len Config.QUESTIONS ->
    let r := run (answer_update chat user <$> tes) sessions in
    let final := record_answers s tes in
    (scores_in_float_range sessions -> r.1 = delete chat sessions) /\
    exists rep,
      reports_to chat r.2 = [rep] /\
      r_score rep = score final /\
      r_level rep = dict_get Config.LEVELS (score final) Config.level_0 /\
      count_answers (answers final) answers_count0 = Ok (r_answers_count rep) /\
      collect_weak_points 0 (answers final) [] = Ok (r_weak_points rep).
Proof.
  induction tes as [|te tes IH]; intros sessions s Hs Hok Hcan Hsent Hlen.
  { destruct Hok as [_ Hlt]. unfold len in Hlen at 1. cbn in Hlen. lia. }
  apply Forall_cons in Hcan as [Hte Hcan].
  apply Forall_cons in Hsent as [Htp Hsent].
  destruct (answer_lookups s te.1 Hok Hte) as (q & p & risk & Hq & _ & Hp & Hrisk).
  cbv zeta. rewrite fmap_cons. cbn [run].
  destruct (answer_update chat user te) as [u env] eqn:Hu.
  pose proof (dispatch_answer chat user te sessions Hte) as Hd.
  rewrite Hu in Hd. cbn [fst snd] in Hd. rewrite Hd, Htp. clear Hd Hu u env.
  cbn [record_answers]. rewrite Hq, Hp.
  set (m := {| chat_id := chat; from_user := user; text := te.1; command := None |}).
  assert (Hinv2 : session_inv (answered s q te.1 p (now te.2)))
    by (apply answered_inv; try done; apply Hok).
  destruct (decide (current_question s + 1 < len Config.QUESTIONS)) as [Hlt|Hge].
  - destruct (handle_answer_next m (now te.2) sessions s q p risk)
      as (q' & _ & ->); try done.
    unfold store_of, trace_of. cbn [fst snd chat_id text m].
    assert (Hok2 : session_ok (answered s q te.1 p (now te.2))) by (by split).
    assert (Hlen2 : current_question (answered s q te.1 p (now te.2)) + len tes
                    = len Config.QUESTIONS).
    { change (current_question (answered s q te.1 p (now te.2)))
        with (current_question s + 1).
      unfold len in *. cbn [length] in Hlen. lia. }
    destruct (IH (<[chat := answered s q te.1 p (now te.2)]> sessions)
                 (answered s q te.1 p (now te.2))
                 (lookup_insert_eq _ _ _) Hok2 Hcan Hsent Hlen2)
      as (Hstore & rep & Hrep & Hrest).
    split.
    + intros HS. rewrite Hstore by by apply scores_in_float_range_insert.
      apply delete_insert_eq.
    + exists rep. split; [|exact Hrest].
      rewrite reports_to_app, Hrep. simpl_sent. reflexivity.
  - assert (tes = []) as ->.
    { destruct Hok as [_ Hlt]. destruct tes; [done|].
      unfold len in *. cbn [length] in Hlen. lia. }
    assert (Hlast : current_question s + 1 = len Config.QUESTIONS).
    { destruct Hok as [_ Hlt]. lia. }
    cbn [fmap list_fmap run record_answers].
    destruct (calculate_average_score
                (<[chat_id m := answered s q (text m) p (now te.2)]> sessions))
      as [avg|e] eqn:Havg.
    + destruct (handle_answer_last m (now te.2) sessions s q p risk
                  Hs Hok Hq Hp Hrisk Hlast (ex_intro _ avg Havg))
        as (ac & wp & avg' & pct & Hac & Hwp & _ & _ & ->).
      unfold store_of, trace_of. cbn [fst snd chat_id text m].
      split; [reflexivity|].
      exists (report_of (answered s q te.1 p (now te.2)) (now te.2) ac wp).
      split; [|by repeat split].
      rewrite app_nil_r. simpl_sent. reflexivity.
    + destruct (handle_answer_last_overflow m (now te.2) sessions s q p risk e
                  Hs Hok Hq Hp Hrisk Hlast Havg)
        as (ac & wp & Hac & Hwp & ->).
      unfold store_of, trace_of. cbn [fst snd chat_id text m].
      split.
      * intros HS. exfalso.
        destruct (average_in_range
                    (<[chat_id m := answered s q (text m) p (now te.2)]> sessions))
          as [avg Havg']; [by apply scores_in_float_range_insert|].
        congruence.
      * exists (report_of (answered s q te.1 p (now te.2)) (now te.2) ac wp).
        split; [|by repeat split].
        rewrite app_nil_r. simpl_sent. reflexivity.
Qed.

Lemma start_then_quiz (chat : Z) (user : User) (env0 : Env)
    (tes : list (string * Env)) (sessions : gmap Z UserSession) :
  len tes = len Config.QUESTIONS ->
  Forall (fun te => canonical te.1) tes ->
  Forall (fun te => transport te.2 = None) tes ->
  let s0 := Session.set_first_name
              (Session.set_username (Session.init chat (now env0))
                 (default "" (tg_username user)))
              (str_or (tg_first_name user) "Пользователь") in
  let r := run (start_update chat user env0 :: (answer_update chat user <$> tes))
               sessions in
  let final := record_answers s0 tes in
  (scores_in_float_range sessions -> r.1 = delete chat sessions) /\
  exists rep,
    reports_to chat r.2 = [rep] /\
    r_score rep = score final /\
    r_level rep = dict_get Config.LEVELS (score final) Config.level_0 /\
    count_answers (answers final) answers_count0 = Ok (r_answers_count rep) /\
    collect_weak_points 0 (answers final) [] = Ok (r_weak_points rep).
Proof.
  intros Hlen Hcan Hsent s0 r final. subst r.
  cbn [run start_update]. unfold dispatch, is_command. cbn [command].
  rewrite bool_decide_eq_true_2 by apply list_elem_of_here.
  rewrite handle_start_any. cbv zeta.
  unfold store_of, trace_of. cbn [fst snd chat_id from_user].
  fold s0.
  destruct (quiz_run chat user tes (<[chat := s0]> sessions) s0)
    as (Hstore & rep & Hrep & Hrest).
  - apply lookup_insert_eq.
  - apply init_ok.
  - exact Hcan.
  - exact Hsent.
  - change (current_question s0) with 0. lia.
  - cbv zeta in Hstore, Hrep, Hrest. split.
    + intros HS. rewrite Hstore.
      * apply delete_insert_eq.
      * apply scores_in_float_range_insert; [done|apply init_ok].
    + exists rep. split; [|exact Hrest].
      rewrite !reports_to_app, Hrep.
      destruct (transport env0) as [[|k]|]; simpl_sent; reflexivity.
Qed.



(** C9. The answers Все, Мои контакты, Никто, Все, Мои контакты, given
    in this order after a start and with their sends delivered, yield a
    report with score 4 whose weak points are the four answers worth
    less than 2 points, each paired with the question of its position,
    in question order; this holds in any store. *)
Theorem mixed_answers_report (chat : Z) (user : User) (env0 e1 e2 e3 e4 e5 : Env)
    (sessions : gmap Z UserSession)
    (Hsent : Forall (fun e => transport e = None) [e1; e2; e3; e4; e5]) :
  let tes := [("Все", e1); ("Мои контакты", e2); ("Никто", e3);
              ("Все", e4); ("Мои контакты", e5)] in
  let r := run (start_update chat user env0 :: (answer_update chat user <$> tes))
               sessions in
  exists rep,
    reports_to chat r.2 = [rep] /\
    r_score rep = 4 /\
    r_weak_points rep =
      [(Config.question_phone,
        {| question_id := "phone"; answer := "Все"; points := 0;
           timestamp := now e1 |});
       (Config.question_last_seen,
        {| question_id := "last_seen"; answer := "Мои контакты"; points := 1;
           timestamp := now e2 |});
       (Config.question_groups,
        {| question_id := "groups"; answer := "Все"; points := 0;
           timestamp := now e4 |});
       (Config.question_forwarding,
        {| question_id := "forwarding"; answer := "Мои контакты"; points := 1;
           timestamp := now e5 |})] /\
    Forall (fun qa => points qa.2 < 2 /\ question_id qa.2 = q_id qa.1)
      (r_weak_points rep).
Proof.
  intros tes r.
  destruct (start_then_quiz chat user env0 tes sessions) as (_ & rep & Hrep & Hsc & _ & _ & Hwp).
  - reflexivity.
  - subst tes. repeat constructor; cbn [fst]; unfold canonical;
      repeat first [apply list_elem_of_here | apply list_elem_of_further].
  - subst tes. repeat (apply Forall_cons in Hsent as [? Hsent]).
    repeat constructor; done.
  - cbv zeta in Hrep, Hsc, Hwp. exists rep. split; [exact Hrep|].
    split; [rewrite Hsc; vm_compute; reflexivity|].
    assert (Heq : r_weak_points rep =
      [(Config.question_phone,
        {| question_id := "phone"; answer := "Все"; points := 0;
           timestamp := now e1 |});
       (Config.question_last_seen,
        {| question_id := "last_seen"; answer := "Мои контакты"; points := 1;
           timestamp := now e2 |});
       (Config.question_groups,
        {| question_id := "groups"; answer := "Все"; points := 0;
           timestamp := now e4 |});
       (Config.question_forwarding,
        {| question_id := "forwarding"; answer := "Мои контакты"; points := 1;
           timestamp := now e5 |})]).
    { assert (Hinj : forall x y : list (Question * AnswerRecord), Ok x = Ok y -> x = y)
        by (intros x y Hxy; by injection Hxy).
      apply Hinj. rewrite <- Hwp. vm_compute. reflexivity. }
    split; [exact Heq|].
    rewrite Heq. repeat constructor; cbn; lia.
Qed.

(** ** Order of the effects of an accepted answer *)


(** ** The statistics sent with the report *)

Lemma demo_store : (run Demo.four_answers ∅).1 = Demo.one_session.
Proof. vm_compute. reflexivity. Qed.



(** ** The statements on concrete inputs *)



Lemma start_replaces_session_witness :
  Demo.one_session !! chat_id Demo.start_again = Some Demo.session_after_four /\
  is_command Demo.start_again ["start"; "help"] = true /\
  (transport (Demo.at_time 9000000) ≠ Some 0%nat ->
   result_of (dispatch (TextMessage Demo.start_again) (Demo.at_time 9000000)
                Demo.one_session) = Ok tt) /\
  exists s,
    store_of (dispatch (TextMessage Demo.start_again) (Demo.at_time 9000000)
                Demo.one_session) !! chat_id Demo.start_again = Some s /\
    current_question s = 0 /\ answers s = [] /\ score s = 0 /\
    start_time s = now (Demo.at_time 9000000) /\
    forall a, a ∈ answers Demo.session_after_four -> a ∉ answers s.
Proof.
  split; [vm_compute; reflexivity|].
  split; [vm_compute; reflexivity|].
  apply (start_replaces_session Demo.start_again (Demo.at_time 9000000)
           Demo.one_session Demo.session_after_four).
  - vm_compute; reflexivity.
  - vm_compute; reflexivity.
Defined.

Lemma cancel_deletes_session_witness :
  Demo.one_session !! chat_id (Demo.says CANCEL) = Some Demo.session_after_four /\
  text (Demo.says CANCEL) = CANCEL /\
  (None : Transport) ≠ Some 0%nat /\
  result_of (handle_answer (Demo.says CANCEL) 5000000 None Demo.one_session) = Ok tt /\
  store_of (handle_answer (Demo.says CANCEL) 5000000 None Demo.one_session) =
    delete 42 Demo.one_session /\
  store_of (handle_answer (Demo.says CANCEL) 5000000 None Demo.one_session) !! 42 = None /\
  trace_of (handle_answer (Demo.says CANCEL) 5000000 None Demo.one_session) =
    [SendMessage 42 CancelledText remove_keyboard; SessionPop 42] /\
  reports_to 42 (trace_of (handle_answer (Demo.says CANCEL) 5000000 None Demo.one_session)) = [].
Proof.
  split; [vm_compute; reflexivity|].
  split; [reflexivity|].
  split; [discriminate|].
  apply (cancel_deletes_session (Demo.says CANCEL) 5000000 None Demo.one_session
           Demo.session_after_four).
  - vm_compute; reflexivity.
  - reflexivity.
  - discriminate.
Defined.



Lemma level_lookup_falls_back_witness :
  (Config.LEVELS !! 11 = None \/ 11 < 0 \/ 10 < 11) /\
  Edge.store_off_table !! 42 = Some Edge.session_off_table /\
  score Edge.session_off_table = 11 /\
  count_answers (answers Edge.session_off_table) answers_count0 = Ok answers_count0 /\
  collect_weak_points 0 (answers Edge.session_off_table) [] = Ok [] /\
  (None : Transport) ≠ Some 0%nat /\
  dict_getitem Config.LEVELS 0 = Ok Config.level_0 /\
  dict_get Config.LEVELS 11 Config.level_0 = Config.level_0 /\
  (exists rep rest,
     trace_of (send_final_report 42 60000000 None Edge.store_off_table) =
       SendMessage 42 (ReportText rep) remove_keyboard :: rest /\
     r_score rep = 11 /\
     r_level rep = Config.level_0) /\
  (forall (chat' t' : Z) (tp' : Transport) (sessions' : gmap Z UserSession)
          (s' : UserSession) (r : Report),
     sessions' !! chat' = Some s' -> score s' = 11 ->
     ReportText r ∈ sent_to chat'
       (trace_of (send_final_report chat' t' tp' sessions')) ->
     r_level r = Config.level_0).
Proof.
  split; [right; right; lia|].
  split; [vm_compute; reflexivity|].
  split; [reflexivity|].
  split; [reflexivity|].
  split; [reflexivity|].
  split; [discriminate|].
  apply (level_lookup_falls_back 11 42 60000000 None Edge.store_off_table
           Edge.session_off_table answers_count0 []).
  - right; right; lia.
  - vm_compute; reflexivity.
  - reflexivity.
  - reflexivity.
  - reflexivity.
  - discriminate.
Defined.


Lemma mixed_answers_report_witness :
  Forall (fun e => transport e = None)
    [Demo.at_time 1000000; Demo.at_time 2000000; Demo.at_time 3000000;
     Demo.at_time 4000000; Demo.at_time 5000000] /\
  exists rep,
    reports_to 42
      (run (start_update 42 Demo.alice (Edge.failing_after 0 0) ::
            (answer_update 42 Demo.alice <$>
               [("Все", Demo.at_time 1000000); ("Мои контакты", Demo.at_time 2000000);
                ("Никто", Demo.at_time 3000000); ("Все", Demo.at_time 4000000);
                ("Мои контакты", Demo.at_time 5000000)]))
         Edge.huge_store).2 = [rep] /\
    r_score rep = 4 /\
    r_weak_points rep =
      [(Config.question_phone,
        {| question_id := "phone"; answer := "Все"; points := 0;
           timestamp := now (Demo.at_time 1000000) |});
       (Config.question_last_seen,
        {| question_id := "last_seen"; answer := "Мои контакты"; points := 1;
           timestamp := now (Demo.at_time 2000000) |});
       (Config.question_groups,
        {| question_id := "groups"; answer := "Все"; points := 0;
           timestamp := now (Demo.at_time 4000000) |});
       (Config.question_forwarding,
        {| question_id := "forwarding"; answer := "Мои контакты"; points := 1;
           timestamp := now (Demo.at_time 5000000) |})] /\
    Forall (fun qa => points qa.2 < 2 /\ question_id qa.2 = q_id qa.1)
      (r_weak_points rep).
Proof.
  assert (Hsent : Forall (fun e => transport e = None)
            [Demo.at_time 1000000; Demo.at_time 2000000; Demo.at_time 3000000;
             Demo.at_time 4000000; Demo.at_time 5000000])
    by repeat constructor.
  split; [exact Hsent|].
  apply (mixed_answers_report 42 Demo.alice (Edge.failing_after 0 0)
           (Demo.at_time 1000000) (Demo.at_time 2000000) (Demo.at_time 3000000)
           (Demo.at_time 4000000) (Demo.at_time 5000000) Edge.huge_store Hsent).
Defined.


(** * Further properties of the program *)

(** ** Computations local to one chat *)

Lemma local_ret {A} (c : Z) (a : A) : local_to c (bot_ret a).
Proof. intros tp S. split; [done|constructor]. Qed.

Lemma local_lift {A} (c : Z) (o : outcome A) : local_to c (lift o).
Proof. intros tp S. split; [done|constructor]. Qed.

Lemma local_emit (c : Z) (e : Effect) : about c e -> local_to c (emit e).
Proof. intros He tp S. split; [done|]. by repeat constructor. Qed.

Lemma local_transport_call (c : Z) (e : Effect) :
  about c e -> local_to c (transport_call e).
Proof. intros He [[|k]|] S; (split; [done|]); by repeat constructor. Qed.

Lemma local_send (c : Z) (x : Content) (k : Markup) : local_to c (send_message c x k).
Proof. by apply local_transport_call. Qed.

Lemma local_answer_callback_query (c : Z) (id : string) :
  local_to c (answer_callback_query id).
Proof. by apply local_transport_call. Qed.

Lemma local_get_sessions (c : Z) : local_to c get_sessions.
Proof. intros tp S. split; [done|constructor]. Qed.

Lemma local_sessions_get (c c0 : Z) : local_to c (sessions_get c0).
Proof. intros tp S. split; [done|constructor]. Qed.

Lemma local_sessions_getitem (c c0 : Z) : local_to c (sessions_getitem c0).
Proof. intros tp S. split; [done|constructor]. Qed.

Lemma local_session_write (c : Z) (s : UserSession) : local_to c (session_write c s).
Proof.
  intros tp S. split.
  - intros c' Hc'. unfold session_write, store_of. cbn. by rewrite lookup_insert_ne.
  - by repeat constructor.
Qed.

Lemma local_sessions_pop (c : Z) : local_to c (sessions_pop c).
Proof.
  intros tp S. split.
  - intros c' Hc'. unfold sessions_pop, store_of. cbn. by rewrite lookup_delete_ne.
  - by repeat constructor.
Qed.

Lemma local_bind {A B} (c : Z) (m : Bot A) (k : A -> Bot B) :
  local_to c m -> (forall a, local_to c (k a)) -> local_to c (bot_bind m k).
Proof.
  intros Hm Hk tp S. destruct (Hm tp S) as [Hm1 Hm2].
  unfold bot_bind, store_of, trace_of in *.
  destruct (m tp S) as [[[a|e] S1] tr1]; cbn [fst snd] in *; [|by split].
  destruct (Hk a (spend (calls tr1) tp) S1) as [Hk1 Hk2].
  destruct (k a _ S1) as [[r S2] tr2]; cbn [fst snd] in *. split.
  - intros c' Hc'. by rewrite Hk1, Hm1.
  - by apply Forall_app.
Qed.

Ltac local_step :=
  cbv zeta;
  first
    [ apply local_bind; [|intros ?]
    | apply local_ret | apply local_lift | apply local_send
    | apply local_answer_callback_query
    | apply local_get_sessions | apply local_sessions_get
    | apply local_sessions_getitem | apply local_session_write
    | apply local_sessions_pop
    | apply local_emit; exact I ].

Lemma local_ask_question (c : Z) : local_to c (ask_question c).
Proof.
  unfold ask_question. local_step; [local_step|].
  destruct a as [s|]; [|local_step].
  destruct (Session.is_completed s); repeat local_step.
Qed.

Lemma local_send_risk_explanation (c : Z) (q : Question) (a : string) :
  local_to c (send_risk_explanation c q a).
Proof. unfold send_risk_explanation. repeat local_step. Qed.

Lemma local_send_final_report (c t : Z) : local_to c (send_final_report c t).
Proof.
  unfold send_final_report. local_step; [local_step|].
  destruct a as [s|]; repeat local_step.
Qed.

Lemma local_handle_start (m : Message) (t : Z) : local_to (chat_id m) (handle_start m t).
Proof. unfold handle_start. repeat local_step. Qed.

Lemma local_handle_answer (m : Message) (t : Z) :
  local_to (chat_id m) (handle_answer m t).
Proof.
  unfold handle_answer. local_step; [local_step|].
  destruct a as [s|]; [|local_step].
  destruct (decide (text m = CANCEL)); [repeat local_step|].
  do 5 (local_step; [first [apply local_send_risk_explanation | local_step]|]).
  destruct (Session.is_completed _).
  - local_step; [apply local_send_final_report|local_step].
  - apply local_ask_question.
Qed.

Lemma local_start_check_callback (c : CallbackQuery) :
  local_to (call_chat_id c) (start_check_callback c).
Proof.
  unfold start_check_callback. local_step; [local_step|].
  destruct a as [s|]; [|local_step].
  local_step; [local_step|apply local_ask_question].
Qed.

Lemma local_handle_stats (m : Message) (t : Z) : local_to (chat_id m) (handle_stats m t).
Proof. unfold handle_stats. destruct (decide _); repeat local_step. Qed.

Lemma local_dispatch_at (u : Update) (env : Env) (sessions : gmap Z UserSession) :
  (forall c', c' ≠ chat_of u ->
     store_of (dispatch u env sessions) !! c' = sessions !! c') /\
  Forall (about (chat_of u)) (trace_of (dispatch u env sessions)).
Proof.
  destruct u as [m|c]; unfold dispatch, chat_of; cbv zeta.
  - destruct (is_command m ["start"; "help"]); [apply local_handle_start|].
    destruct (bool_decide _); [apply local_handle_answer|].
    destruct (is_command m ["stats"]); [apply local_handle_stats|].
    destruct (is_command m ["version"]); apply local_send.
  - destruct (decide _); [apply local_start_check_callback|].
    apply (local_ret (call_chat_id c) tt).
Qed.

Lemma local_dispatch (u : Update) (env : Env) (sessions : gmap Z UserSession)
    (c : Z) :
  c ≠ chat_of u -> store_of (dispatch u env sessions) !! c = sessions !! c.
Proof. apply local_dispatch_at. Qed.


(** An update of one chat sends messages to that chat only, and writes
    or pops no session but that of this chat. *)
Theorem effects_stay_in_chat (u : Update) (env : Env)
    (sessions : gmap Z UserSession) (c : Z)
    (Hother : c ≠ chat_of u) :
  sent_to c (trace_of (dispatch u env sessions)) = [] /\
  forall e, e ∈ trace_of (dispatch u env sessions) ->
    (forall s, e ≠ SessionWrite c s) /\ e ≠ SessionPop c.
Proof.
  destruct (local_dispatch_at u env sessions) as [_ Htr].
  revert Htr. generalize (trace_of (dispatch u env sessions)). intros tr Htr.
  split.
  - induction Htr as [|e tr He _ IH]; [reflexivity|].
    unfold sent_to in *. cbn [omap list_omap]. rewrite IH.
    destruct e; try reflexivity. cbn in He. subst.
    by rewrite decide_False.
  - intros e He. rewrite Forall_forall in Htr. specialize (Htr e He).
    split; [intros s|]; intros ->; cbn in Htr; congruence.
Qed.

(** ** Updates that keep the store *)

(** An update that is neither a start command nor an accepted answer
    text (a statistics or version command, any other text, a button
    press) leaves the whole store as it was. *)
Theorem other_updates_keep_store (u : Update) (env : Env)
    (sessions : gmap Z UserSession)
    (Hstart : is_start u = false)
    (Hanswer : is_answer u = false) :
  store_of (dispatch u env sessions) = sessions.
Proof. by apply dispatch_read_only. Qed.

(** Only a start command creates a session: a chat without a session
    still has none after any other update, from whatever chat. *)
Theorem only_start_creates_session (u : Update) (env : Env)
    (sessions : gmap Z UserSession) (c : Z)
    (Hstart : is_start u = false)
    (Hnone : sessions !! c = None) :
  store_of (dispatch u env sessions) !! c = None.
Proof.
  destruct (decide (c = chat_of u)) as [->|Hne];
    [|by rewrite (local_dispatch u env sessions c Hne)].
  destruct (is_answer u) eqn:Hans;
    [|by rewrite dispatch_read_only].
  destruct u as [m|cb]; [|discriminate]. cbn [is_start is_answer chat_of] in *.
  unfold dispatch. rewrite Hstart in *. cbn [negb andb] in Hans. rewrite Hans.
  rewrite (handle_answer_absent_any m (now env) (transport env) sessions Hnone).
  by destruct (transport env) as [[|k]|].
Qed.

(** ** What a handler can raise *)

Lemma transport_call_result (e : Effect) (tp : Transport)
    (sessions : gmap Z UserSession) :
  result_of (transport_call e tp sessions) = Ok tt \/
  result_of (transport_call e tp sessions) = Raise ApiTelegramException.
Proof. destruct tp as [[|k]|]; cbn; auto. Qed.

Lemma start_check_callback_returns (c : CallbackQuery) (tp : Transport)
    (sessions : gmap Z UserSession) :
  store_ok sessions ->
  result_of (start_check_callback c tp sessions) = Ok tt \/
  result_of (start_check_callback c tp sessions) = Raise ApiTelegramException.
Proof.
  intros HS. unfold start_check_callback.
  destruct (sessions !! call_chat_id c) as [s|] eqn:Hs.
  - destruct (HS _ _ Hs) as [Hinv Hlt].
    pose proof (session_inv_bounds s Hinv) as Hb.
    destruct (list_getitem_in_range Config.QUESTIONS (current_question s))
      as (q & Hq & _); [lia|].
    destruct tp as [[|k]|]; run_bot; rewrite Hs; cbv beta iota zeta; budget;
      [by right| |];
      rewrite (ask_question_any _ _ sessions s q Hs (proj1 Hb) Hq).
    + destruct k; cbn; auto.
    + cbn; auto.
  - destruct tp as [[|k]|]; run_bot; rewrite Hs; cbn; auto.
Qed.

(** On a well-formed store a handler returns, or ends with the
    exception of the transport. *)
Lemma dispatch_returns (u : Update) (env : Env) (sessions : gmap Z UserSession) :
  store_ok sessions ->
  result_of (dispatch u env sessions) = Ok tt \/
  result_of (dispatch u env sessions) = Raise ApiTelegramException.
Proof.
  intros HS. destruct u as [m|c]; unfold dispatch; cbv zeta.
  - destruct (is_command m ["start"; "help"]).
    { rewrite handle_start_any. cbv zeta.
      destruct (transport env) as [[|k]|]; cbn; auto. }
    destruct (bool_decide _) eqn:Htext.
    { apply bool_decide_eq_true in Htext. by apply handle_answer_returns. }
    destruct (is_command m ["stats"]).
    { unfold handle_stats, ADMIN_IDS.
      destruct (decide (tg_id (from_user m) ∈ [])) as [Hin|_];
        [by apply elem_of_nil in Hin|].
      apply transport_call_result. }
    destruct (is_command m ["version"]); apply transport_call_result.
  - destruct (decide (call_data c = "start_check")); [|by left].
    by apply start_check_callback_returns.
Qed.

(** In a store reached from the empty one by updates whose sends were
    delivered, an update is handled to its end when its own sends are
    delivered, and ends with the [ApiTelegramException] of the transport
    otherwise: no [KeyError], [IndexError], [ZeroDivisionError] or
    [OverflowError] leaves a handler. *)
Theorem reachable_dispatch_returns (updates : list (Update * Env))
    (u : Update) (env : Env)
    (Hsent : delivered updates) :
  (result_of (dispatch u env (run updates ∅).1) = Ok tt \/
   result_of (dispatch u env (run updates ∅).1) = Raise ApiTelegramException) /\
  (transport env = None ->
   result_of (dispatch u env (run updates ∅).1) = Ok tt).
Proof.
  pose proof (run_ok updates ∅ Hsent store_ok_empty) as HS.
  split; [by apply dispatch_returns|].
  intros Htp. by apply dispatch_ok.
Qed.

(** ** Scores *)

Lemma points_of_choice (k : string) (p : Z) :
  Config.POINTS !! k = Some p ->
  (k = "Все" /\ p = 0) \/ (k = "Мои контакты" /\ p = 1) \/ (k = "Никто" /\ p = 2).
Proof.
  intros H. apply elem_of_list_to_map_2 in H.
  repeat (apply elem_of_cons in H as [H|H]; [inversion H; subst; tauto|]).
  by apply elem_of_nil in H.
Qed.

(** After any sequence of updates handled from the empty store, whatever
    the transport did, the score of a session found in the store lies
    between 0 and twice the number of its recorded answers.  When every
    send of the run was delivered, the score is at most twice the
    question index, hence at most 8. *)
Theorem stored_score_bounds (updates : list (Update * Env)) (c : Z) (s : UserSession)
    (Hs : (run updates ∅).1 !! c = Some s) :
  0 <= score s <= 2 * len (answers s) /\
  (delivered updates -> score s <= 2 * current_question s /\ score s <= 8).
Proof.
  pose proof (run_wf updates ∅ store_wf_empty c s Hs) as Hwf.
  split.
  - rewrite (wf_score s Hwf). apply sum_points_bounds, Hwf.
  - intros Hd. destruct (run_ok updates ∅ Hd store_ok_empty c s Hs) as [Hinv Hlt].
    pose proof (session_inv_score s Hinv) as Hb.
    rewrite len_QUESTIONS in Hlt. lia.
Qed.

(** ** The loops of the report *)

Lemma count_answers_tally_aux (l : list AnswerRecord) :
  forall (ac ac' : gmap string Z),
    count_answers l ac = Ok ac' ->
    forall k, ac' !! k = (fun n => n + times_chosen k l) <$> ac !! k.
Proof.
  unfold times_chosen.
  induction l as [|a l IH]; intros ac ac' H k; cbn [count_answers] in H.
  - injection H as <-. cbn. destruct (ac !! k) as [n|]; cbn; [f_equal; lia|done].
  - unfold dict_getitem in H. destruct (ac !! answer a) as [n|] eqn:Hn; [|discriminate].
    cbn [outcome_bind] in H. rewrite (IH _ _ H k), filter_cons.
    destruct (decide (answer a = k)) as [<-|Hne].
    + rewrite lookup_insert_eq, Hn. cbn. f_equal. lia.
    + by rewrite lookup_insert_ne.
Qed.

(** The tally loop adds to each key of the tally the number of answers
    that chose it, and adds no key. *)
Theorem count_answers_tally (l : list AnswerRecord) (ac ac' : gmap string Z)
    (k : string)
    (Hok : count_answers l ac = Ok ac') :
  ac' !! k = (fun n => n + times_chosen k l) <$> ac !! k.
Proof. by apply count_answers_tally_aux. Qed.

Lemma count_answers_raise_aux (l : list AnswerRecord) :
  forall (ac : gmap string Z),
    (exists ac', count_answers l ac = Ok ac' /\ forall a, a ∈ l -> is_Some (ac !! answer a)) \/
    (count_answers l ac = Raise KeyError /\ exists a, a ∈ l /\ ac !! answer a = None).
Proof.
  induction l as [|a l IH]; intros ac; cbn [count_answers].
  - left. exists ac. split; [done|]. intros a Ha. by apply elem_of_nil in Ha.
  - unfold dict_getitem. destruct (ac !! answer a) as [n|] eqn:Hn; cbn [outcome_bind].
    + destruct (IH (<[answer a := n + 1]> ac)) as [(ac' & Hac' & Hall)|(Hr & b & Hb & Hnone)].
      * left. exists ac'. split; [done|]. intros b Hb.
        apply elem_of_cons in Hb as [->|Hb]; [by rewrite Hn|].
        specialize (Hall b Hb).
        destruct (decide (answer a = answer b)) as [Heq|Hne].
        -- rewrite <- Heq, Hn. eauto.
        -- by rewrite lookup_insert_ne in Hall.
      * right. split; [done|]. exists b. split; [by right|].
        destruct (decide (answer a = answer b)) as [Heq|Hne].
        -- rewrite <- Heq, lookup_insert_eq in Hnone. discriminate.
        -- by rewrite lookup_insert_ne in Hnone.
    + right. split; [done|]. exists a. split; [left|done].
Qed.

(** The tally loop raises exactly when some answer is not a key of the
    tally, and then it raises [KeyError]. *)
Theorem count_answers_raises (l : list AnswerRecord) (ac : gmap string Z) :
  (forall e, count_answers l ac = Raise e -> e = KeyError) /\
  (count_answers l ac = Raise KeyError <->
   exists a, a ∈ l /\ ac !! answer a = None).
Proof.
  destruct (count_answers_raise_aux l ac) as [(ac' & Hac' & Hall)|(Hr & Hex)].
  - rewrite Hac'. split; [discriminate|]. split; [discriminate|].
    intros (a & Ha & Hnone). destruct (Hall a Ha) as [n Hn]. congruence.
  - rewrite Hr. split; [by intros e [= <-]|]. by split.
Qed.

Lemma collect_weak_points_spec (l : list AnswerRecord) :
  forall (i : nat) (wp : list (Question * AnswerRecord)),
    (i ≤ length Config.QUESTIONS)%nat ->
    collect_weak_points (Z.of_nat i) l wp =
      if decide (i + length l ≤ length Config.QUESTIONS)%nat
      then Ok (wp ++ filter (fun qa => points qa.2 < 2)
                       (zip (drop i Config.QUESTIONS) l))
      else Raise IndexError.
Proof.
  induction l as [|a l IH]; intros i wp Hi; cbn [collect_weak_points].
  - rewrite zip_with_nil_r, filter_nil, app_nil_r.
    destruct (decide _) as [|Hgt]; [done|].
    cbn [length] in Hgt. lia.
  - rewrite list_getitem_nonneg by lia. rewrite Nat2Z.id.
    destruct (Config.QUESTIONS !! i) as [q|] eqn:Hq; cbn [outcome_bind].
    + apply lookup_lt_Some in Hq as Hlt.
      replace (Z.of_nat i + 1) with (Z.of_nat (S i)) by lia.
      rewrite IH by lia. cbn [length].
      rewrite (drop_S _ _ _ Hq). cbn [zip_with]. rewrite filter_cons. cbn [snd].
      destruct (decide (S i + length l ≤ length Config.QUESTIONS)%nat);
        destruct (decide (i + S (length l) ≤ length Config.QUESTIONS)%nat); try lia;
        [|done].
      destruct (decide (points a < 2)); [by rewrite <- app_assoc|done].
    + apply lookup_ge_None in Hq. cbn [length].
      destruct (decide _); [lia|done].
Qed.

Lemma collect_weak_points_zero (l : list AnswerRecord) :
  collect_weak_points 0 l [] =
    if decide (length l ≤ length Config.QUESTIONS)%nat
    then Ok (filter (fun qa => points qa.2 < 2) (zip Config.QUESTIONS l))
    else Raise IndexError.
Proof. apply (collect_weak_points_spec l 0%nat []). lia. Qed.

(** The weak-point loop pairs each answer with the question of the same
    position and keeps, in order, the pairs whose answer is worth less
    than 2 points; with more answers than questions it raises
    [IndexError]. *)
Theorem collect_weak_points_filter (l : list AnswerRecord) :
  collect_weak_points 0 l [] =
    if decide (length l ≤ length Config.QUESTIONS)%nat
    then Ok (filter (fun qa => points qa.2 < 2) (zip Config.QUESTIONS l))
    else Raise IndexError.
Proof. apply collect_weak_points_zero. Qed.

(** ** Every report that is sent *)

Lemma ask_question_no_report (chat : Z) (tp : Transport)
    (sessions : gmap Z UserSession) (c : Z) (rep : Report) (k : Markup) :
  SendMessage c (ReportText rep) k ∉ trace_of (ask_question chat tp sessions).
Proof.
  unfold ask_question. destruct tp as [[|k']|]; run_bot;
    (destruct (sessions !! chat) as [s|]; [|cbn; intros H; no_report H]);
    (destruct (Session.is_completed s); [cbn; intros H; no_report H|]);
    destruct (list_getitem _ _); cbn; intros H; no_report H.
Qed.

(** A report sent by [handle_answer] is the report of a well-formed
    session that has answered every question, whatever the transport
    did before. *)
Lemma handle_answer_reports (m : Message) (t : Z) (tp : Transport)
    (sessions : gmap Z UserSession) (c : Z) (rep : Report) (k : Markup) :
  store_wf sessions ->
  SendMessage c (ReportText rep) k ∈ trace_of (handle_answer m t tp sessions) ->
  report_of_completed rep.
Proof.
  intros HS Hin.
  destruct (sessions !! chat_id m) as [s|] eqn:Hs.
  2:{ rewrite (handle_answer_absent_any m t tp sessions Hs) in Hin.
      destruct tp as [[|k']|]; cbn in Hin; no_report Hin. }
  pose proof (HS _ _ Hs) as Hwf.
  destruct (decide (text m = CANCEL)) as [Hc|Hne].
  { destruct (decide (tp = Some 0%nat)) as [->|Htp].
    - rewrite (handle_answer_cancel_lost m t sessions s Hs Hc) in Hin.
      cbn in Hin. no_report Hin.
    - rewrite (handle_answer_cancel_any m t tp sessions s Hs Hc Htp) in Hin.
      cbn in Hin. no_report Hin. }
  destruct (list_getitem Config.QUESTIONS (current_question s)) as [q|e] eqn:Hq.
  2:{ rewrite (handle_answer_lookup_raises m t tp sessions s e Hs Hne) in Hin;
        [cbn in Hin; no_report Hin|by rewrite Hq]. }
  destruct (Config.POINTS !! text m) as [p|] eqn:Hp.
  2:{ rewrite (handle_answer_lookup_raises m t tp sessions s KeyError Hs Hne) in Hin;
        [cbn in Hin; no_report Hin|].
      rewrite Hq. cbn [outcome_bind]. unfold dict_getitem. by rewrite Hp. }
  destruct (canonical_risks q (text m)) as [risk Hrisk].
  { by eapply list_getitem_elem. }
  { by eapply points_canonical. }
  rewrite (handle_answer_any m t tp sessions s q p risk Hs Hne Hq Hp Hrisk) in Hin.
  cbv zeta in Hin.
  assert (Hq' : Config.QUESTIONS !! Z.to_nat (current_question s) = Some q).
  { pose proof (wf_index s Hwf) as Hi.
    rewrite list_getitem_nonneg in Hq by lia.
    by destruct (Config.QUESTIONS !! Z.to_nat (current_question s)) as [q'|];
      [injection Hq as ->|]. }
  pose proof (answered_wf s q (text m) p t Hwf Hq' Hp) as Hwf2.
  assert (Hrest : forall tp',
    SendMessage c (ReportText rep) k ∈ trace_of
      ((if Session.is_completed (answered s q (text m) p t)
        then bot_bind (send_final_report (chat_id m) t)
               (fun _ => sessions_pop (chat_id m))
        else ask_question (chat_id m)) tp'
         (<[chat_id m := answered s q (text m) p t]> sessions)) ->
    report_of_completed rep).
  { intros tp'. unfold Session.is_completed.
    destruct (bool_decide _) eqn:Hc;
      [|intros H; by apply ask_question_no_report in H].
    apply bool_decide_eq_true in Hc. intros H.
    assert (H' : SendMessage c (ReportText rep) k ∈ trace_of
              (send_final_report (chat_id m) t tp'
                 (<[chat_id m := answered s q (text m) p t]> sessions))).
    { revert H. unfold bot_bind, sessions_pop, trace_of.
      destruct (send_final_report _ _ _ _) as [[[u|e] S'] tr]; cbn [fst snd];
        [|done].
      intros H. apply elem_of_app in H as [H|H]; [done|]. no_report H. }
    apply send_final_report_reports in H' as (s' & ac & wp & Hs' & Hac & Hwp & ->).
    rewrite lookup_insert_eq in Hs'. injection Hs' as <-.
    exists (answered s q (text m) p t), t, ac, wp.
    pose proof (wf_index _ Hwf2) as Hi. pose proof (wf_behind _ Hwf2) as Hb.
    assert (Hlen : (length (answers (answered s q (text m) p t))
                    ≤ length Config.QUESTIONS)%nat).
    { rewrite collect_weak_points_zero in Hwp.
      by destruct (decide _) as [Hle|]; [|discriminate]. }
    unfold len in *.
    split; [apply (wf_sync _ Hwf2); unfold len; lia|].
    split; [lia|]. by repeat split. }
  destruct tp as [[|k']|].
  - unfold trace_of in Hin. cbn [snd] in Hin. no_report Hin.
  - unfold trace_of at 1 in Hin. cbn [snd] in Hin.
    apply elem_of_app in Hin as [Hin|Hin]; [no_report Hin|]. by eapply Hrest.
  - unfold trace_of at 1 in Hin. cbn [snd] in Hin.
    apply elem_of_app in Hin as [Hin|Hin]; [no_report Hin|]. by eapply Hrest.
Qed.

Lemma dispatch_reports (u : Update) (env : Env) (sessions : gmap Z UserSession)
    (c : Z) (rep : Report) (k : Markup) :
  store_wf sessions ->
  SendMessage c (ReportText rep) k ∈ trace_of (dispatch u env sessions) ->
  report_of_completed rep.
Proof.
  intros HS Hin. destruct u as [m|cb]; unfold dispatch in Hin; cbv zeta in Hin.
  - destruct (is_command m ["start"; "help"]).
    { rewrite handle_start_any in Hin. cbv zeta in Hin.
      unfold trace_of in Hin. cbn [snd] in Hin.
      destruct (transport env) as [[|k']|]; cbn [app] in Hin; no_report Hin. }
    destruct (bool_decide _) eqn:Htext.
    { by eapply handle_answer_reports. }
    destruct (is_command m ["stats"]).
    { unfold handle_stats, ADMIN_IDS in Hin.
      destruct (decide (tg_id (from_user m) ∈ [])) as [Hadm|_];
        [by apply elem_of_nil in Hadm|].
      destruct (transport env) as [[|k']|]; cbn in Hin; no_report Hin. }
    destruct (is_command m ["version"]);
      destruct (transport env) as [[|k']|]; cbn in Hin; no_report Hin.
  - destruct (decide (call_data cb = "start_check"));
      [|unfold trace_of in Hin; cbn in Hin; no_report Hin].
    revert Hin. unfold start_check_callback.
    destruct (transport env) as [[|k']|]; run_bot;
      (destruct (sessions !! call_chat_id cb) as [s|];
       [|cbn; intros Hin; no_report Hin]);
      cbv beta iota zeta; try (cbn; intros Hin; no_report Hin).
    + pose proof (ask_question_no_report (call_chat_id cb) (Some (k' - 0)%nat)
                    sessions c rep k) as Hno.
      budget. revert Hno. budget. unfold trace_of.
      destruct (ask_question _ _ _) as [[r S'] tr]. cbn [fst snd app].
      intros Hno Hin. apply elem_of_cons in Hin as [Hin|Hin]; [discriminate Hin|].
      contradiction.
    + pose proof (ask_question_no_report (call_chat_id cb) None
                    sessions c rep k) as Hno.
      revert Hno. unfold trace_of.
      destruct (ask_question _ _ _) as [[r S'] tr]. cbn [fst snd app].
      intros Hno Hin. apply elem_of_cons in Hin as [Hin|Hin]; [discriminate Hin|].
      contradiction.
Qed.

Lemma run_reports (updates : list (Update * Env)) :
  forall (sessions : gmap Z UserSession) (c : Z) (rep : Report),
    store_wf sessions ->
    ReportText rep ∈ sent_to c (run updates sessions).2 ->
    report_of_completed rep.
Proof.
  induction updates as [|[u env] updates IH]; intros sessions c rep HS Hin.
  - cbn in Hin. by apply elem_of_nil in Hin.
  - cbn [run snd] in Hin. rewrite sent_to_app in Hin.
    apply elem_of_app in Hin as [Hin|Hin].
    + apply elem_of_sent_to in Hin as [k Hk]. by eapply dispatch_reports.
    + eapply IH; [|exact Hin]. by apply dispatch_wf.
Qed.

Lemma Ok_inj {A} (x y : A) : Ok x = Ok y -> x = y.
Proof. by intros [= ->]. Qed.

Lemma LEVELS_in_range (x : Z) :
  0 <= x <= 10 -> exists l, Config.LEVELS !! x = Some l.
Proof.
  intros Hx. destruct (Config.LEVELS !! x) as [l|] eqn:Hl; [by exists l|].
  apply LEVELS_dom in Hl. lia.
Qed.

(** Every report the bot sends, in any run from the empty store and
    whatever the transport does, shows a score between 0 and 10 together
    with the level that the table gives for exactly this score: the
    fallback of the lookup is never used. *)
Theorem sent_report_level (updates : list (Update * Env)) (c : Z) (rep : Report)
    (Hsent : ReportText rep ∈ sent_to c (run updates ∅).2) :
  0 <= r_score rep <= 10 /\
  Config.LEVELS !! r_score rep = Some (r_level rep).
Proof.
  destruct (run_reports updates ∅ c rep store_wf_empty Hsent)
    as (s & t & ac & wp & Hinv & Hcq & _ & _ & ->).
  pose proof (session_inv_score s Hinv) as Hb.
  rewrite Hcq, len_QUESTIONS in Hb. cbn [report_of r_score r_level].
  split; [lia|].
  destruct (LEVELS_in_range (score s)) as [l Hl]; [lia|].
  unfold dict_get. by rewrite Hl.
Qed.

Lemma times_chosen_cons (k : string) (a : AnswerRecord) (l : list AnswerRecord) :
  times_chosen k (a :: l) =
    (if decide (answer a = k) then 1 else 0) + times_chosen k l.
Proof.
  unfold times_chosen. rewrite filter_cons.
  destruct (decide (answer a = k)); cbn [length]; lia.
Qed.

Lemma tally_of_choices (l : list AnswerRecord) :
  (forall a, a ∈ l -> Config.POINTS !! answer a = Some (points a)) ->
  times_chosen "Все" l + times_chosen "Мои контакты" l + times_chosen "Никто" l
    = len l /\
  sum (points <$> l) = times_chosen "Мои контакты" l + 2 * times_chosen "Никто" l.
Proof.
  induction l as [|a l IH]; intros Hl; [by split|].
  destruct IH as [IH1 IH2]; [intros b Hb; apply Hl; by right|].
  rewrite !times_chosen_cons. unfold len, sum in *. cbn [length fmap list_fmap foldr].
  destruct (points_of_choice _ _ (Hl a (list_elem_of_here _ _)))
    as [[-> ->]|[[-> ->]|[-> ->]]];
    repeat case_decide; try discriminate; try congruence; lia.
Qed.

(** Every report the bot sends, whatever the transport does, tallies the
    three choices with counts that add up to the number of questions,
    and its score is the number of "Мои контакты" answers plus twice the
    number of "Никто" answers. *)
Theorem sent_report_tally (updates : list (Update * Env)) (c : Z) (rep : Report)
    (Hsent : ReportText rep ∈ sent_to c (run updates ∅).2) :
  exists n0 n1 n2,
    r_answers_count rep !! "Все" = Some n0 /\
    r_answers_count rep !! "Мои контакты" = Some n1 /\
    r_answers_count rep !! "Никто" = Some n2 /\
    0 <= n0 /\ 0 <= n1 /\ 0 <= n2 /\
    n0 + n1 + n2 = len Config.QUESTIONS /\
    r_score rep = n1 + 2 * n2.
Proof.
  destruct (run_reports updates ∅ c rep store_wf_empty Hsent)
    as (s & t & ac & wp & Hinv & Hcq & Hac & _ & ->).
  destruct (tally_of_choices (answers s)) as [Hsum Hscore].
  { intros a Ha. by apply (session_inv_points s). }
  exists (times_chosen "Все" (answers s)), (times_chosen "Мои контакты" (answers s)),
    (times_chosen "Никто" (answers s)).
  cbn [report_of r_answers_count r_score].
  rewrite !(count_answers_tally_aux _ _ _ Hac).
  repeat (split; [reflexivity|]).
  repeat (split; [unfold times_chosen; lia|]).
  split.
  - rewrite Hsum, <- (inv_index s Hinv). exact Hcq.
  - by rewrite (inv_score s Hinv).
Qed.

Lemma all_full_marks (l : list AnswerRecord) :
  (forall a, a ∈ l -> 0 <= points a <= 2) ->
  (Forall (fun a => ¬ points a < 2) l <-> sum (points <$> l) = 2 * len l).
Proof.
  unfold len, sum. induction l as [|a l IH]; intros Hl.
  - split; [done|constructor].
  - cbn [length fmap list_fmap foldr].
    assert (Hrest : forall b, b ∈ l -> 0 <= points b <= 2)
      by (intros b Hb; apply Hl; by right).
    pose proof (Hl a (list_elem_of_here _ _)) as Ha.
    assert (Hub : foldr Z.add 0 (points <$> l) <= 2 * Z.of_nat (length l)).
    { clear -Hrest. induction l as [|b l IHl]; cbn; [lia|].
      pose proof (Hrest b (list_elem_of_here _ _)).
      assert (foldr Z.add 0 (points <$> l) <= 2 * Z.of_nat (length l))
        by (apply IHl; intros x Hx; apply Hrest; by right).
      lia. }
    rewrite Forall_cons, (IH Hrest). lia.
Qed.

Lemma NoDup_QUESTIONS : NoDup Config.QUESTIONS.
Proof.
  apply (NoDup_fmap_1 q_id). cbn.
  repeat (apply NoDup_cons; split;
          [intros H; repeat (apply elem_of_cons in H as [H|H]; [discriminate H|]);
           by apply elem_of_nil in H|]).
  apply NoDup_nil_2.
Qed.

(** Every report the bot sends, whatever the transport does, lists as
    weak points only answers worth less than 2 points, each with the
    question it answered.  The questions of the list are questions of
    the catalog, in catalog order and without repetition: each question
    occurs at most once.  The list is empty exactly when the score
    is 10. *)
Theorem sent_report_weak_points (updates : list (Update * Env)) (c : Z) (rep : Report)
    (Hsent : ReportText rep ∈ sent_to c (run updates ∅).2) :
  Forall (fun qa => points qa.2 < 2 /\ question_id qa.2 = q_id qa.1 /\
                    qa.1 ∈ Config.QUESTIONS)
    (r_weak_points rep) /\
  (r_weak_points rep).*1 `sublist_of` Config.QUESTIONS /\
  NoDup (r_weak_points rep).*1 /\
  (length (r_weak_points rep) ≤ length Config.QUESTIONS)%nat /\
  (r_weak_points rep = [] <-> r_score rep = 10).
Proof.
  destruct (run_reports updates ∅ c rep store_wf_empty Hsent)
    as (s & t & ac & wp & Hinv & Hcq & _ & Hwp & ->).
  cbn [report_of r_weak_points r_score].
  assert (Hlen : length (answers s) = length Config.QUESTIONS).
  { rewrite (inv_index s Hinv) in Hcq. unfold len in Hcq. lia. }
  rewrite collect_weak_points_zero in Hwp.
  destruct (decide _) as [_|Hgt]; [|lia]. apply Ok_inj in Hwp as <-.
  assert (Hsub : (filter (fun qa : Question * AnswerRecord => points qa.2 < 2)
                    (zip Config.QUESTIONS (answers s))).*1
                 `sublist_of` Config.QUESTIONS).
  { rewrite <- (fst_zip Config.QUESTIONS (answers s)) at 2 by lia.
    apply fmap_sublist, sublist_filter. }
  split; [|split; [exact Hsub|split; [|split]]].
  - apply Forall_forall. intros [q a] Hqa.
    apply list_elem_of_filter in Hqa as [Hp Hqa]. cbn [fst snd] in Hp |- *.
    apply list_elem_of_lookup in Hqa as [i Hi].
    apply lookup_zip_with_Some in Hi as (q' & a' & Heq & Hq & Ha).
    injection Heq as <- <-.
    destruct (inv_answers s Hinv i a Ha) as (q'' & Hq'' & Hid & _).
    rewrite Hq in Hq''. injection Hq'' as <-.
    repeat split; [done|done|]. apply list_elem_of_lookup. eauto.
  - eapply sublist_NoDup; [apply NoDup_QUESTIONS|exact Hsub].
  - etrans; [apply length_filter|]. rewrite length_zip_with. lia.
  - rewrite (inv_score s Hinv).
    replace 10 with (2 * len (answers s)) by (unfold len; rewrite Hlen; reflexivity).
    rewrite <- all_full_marks.
    + rewrite <- (snd_zip Config.QUESTIONS (answers s)) at 2 by lia.
      rewrite Forall_fmap. split.
      * intros Hnil. apply Forall_forall. intros qa Hqa Hlt.
        assert (Hin : qa ∈ filter (fun qa : Question * AnswerRecord => points qa.2 < 2)
                            (zip Config.QUESTIONS (answers s)))
          by by apply list_elem_of_filter.
        rewrite Hnil in Hin. by apply elem_of_nil in Hin.
      * intros Hall. rewrite Forall_forall in Hall.
        destruct (filter _ _) as [|qa rest] eqn:Hf; [done|].
        assert (Hin : qa ∈ filter (fun qa : Question * AnswerRecord => points qa.2 < 2)
                            (zip Config.QUESTIONS (answers s)))
          by (rewrite Hf; left).
        apply list_elem_of_filter in Hin as [Hlt Hin]. by destruct (Hall qa Hin).
    + intros a Ha. apply (points_range (answer a)). by apply (session_inv_points s).
Qed.

(** ** The visual bar *)

(** The bar always has ten cells, the filled ones first: as many as the
    score, none for a score of 0 or less, all ten for a score of 10 or
    more. *)
Theorem visual_bar_cells (x : Z) :
  visual_bar x =
    replicate (Z.to_nat (Z.min x 10)) true ++
    replicate (10 - Z.to_nat (Z.min x 10)) false.
Proof.
  unfold visual_bar. change (seqZ 0 10) with [0; 1; 2; 3; 4; 5; 6; 7; 8; 9].
  cbn [fmap list_fmap].
  assert (Hx : x <= 0 \/ x = 1 \/ x = 2 \/ x = 3 \/ x = 4 \/ x = 5 \/ x = 6 \/
               x = 7 \/ x = 8 \/ x = 9 \/ 10 <= x) by lia.
  destruct Hx as [Hx|Hx].
  { replace (Z.to_nat (Z.min x 10)) with 0%nat by lia.
    by rewrite !bool_decide_eq_false_2 by lia. }
  repeat (destruct Hx as [->|Hx]; [reflexivity|]).
  replace (Z.to_nat (Z.min x 10)) with 10%nat by lia.
  by rewrite !bool_decide_eq_true_2 by lia.
Qed.

(** ** The aggregates *)

Lemma huge_store_overflows :
  calculate_average_score Edge.huge_store = Raise OverflowError.
Proof. vm_compute. reflexivity. Qed.

(** The guard on the empty store keeps both aggregates from
    [ZeroDivisionError].  The percentile is a float on every store.  The
    mean is a float on every store whose scores are within the range of
    the floats; on the other stores it is a float or [OverflowError],
    which the store holding a single score of 2^1025 raises. *)
Theorem aggregates_return (sessions : gmap Z UserSession) (x : Z) :
  (exists pct, calculate_percentile sessions x = Ok pct) /\
  ((exists avg, calculate_average_score sessions = Ok avg) \/
   calculate_average_score sessions = Raise OverflowError) /\
  (scores_in_float_range sessions ->
   exists avg, calculate_average_score sessions = Ok avg) /\
  calculate_average_score Edge.huge_store = Raise OverflowError.
Proof.
  split; [apply percentile_returns|].
  split; [apply average_cases|].
  split; [apply average_in_range|apply huge_store_overflows].
Qed.

Lemma own_score_not_lower (sessions : gmap Z UserSession) (c : Z) (s : UserSession) :
  sessions !! c = Some s ->
  (size (filter (fun kv : Z * UserSession => (score kv.2 < score s)%Z) sessions)
     < size sessions)%nat.
Proof.
  intros Hs.
  assert (Hsub : filter (fun kv : Z * UserSession => (score kv.2 < score s)%Z) sessions
                 ⊆ delete c sessions).
  { apply map_subseteq_spec. intros i x Hx.
    apply map_lookup_filter_Some in Hx as [Hi Hlt]. cbn [snd] in Hlt.
    apply lookup_delete_Some. split; [|done].
    intros <-. rewrite Hs in Hi. injection Hi as <-. lia. }
  apply map_subseteq_size in Hsub.
  rewrite map_size_delete_Some in Hsub by eauto.
  assert (size sessions ≠ 0)%nat; [|lia].
  apply map_size_non_empty_iff. intros ->. by rewrite lookup_empty in Hs.
Qed.

(** The percentile reported for the score of a session that is in the
    store counts strictly fewer sessions than the store holds, since the
    session is not below itself; when it is the only session, the
    percentile is exactly [0.0]. *)
Theorem percentile_of_stored_session (sessions : gmap Z UserSession) (c : Z)
    (s : UserSession)
    (Hs : sessions !! c = Some s) :
  (size (filter (fun kv : Z * UserSession => (score kv.2 < score s)%Z) sessions)
     < size sessions)%nat /\
  calculate_percentile {[ c := s ]} (score s) = Ok (S754_zero false).
Proof.
  split; [by apply (own_score_not_lower sessions c s)|].
  rewrite percentile_nonempty by apply map_non_empty_singleton.
  rewrite lower_scores_count.
  rewrite map_filter_singleton_False by (cbn; lia).
  rewrite map_size_empty, map_size_singleton. reflexivity.
Qed.

(** ** Chats do not interfere *)



(** *** With sends that fail *)










(** ** Recording an answer *)

(** In a store reached from the empty one, whatever the transport did on
    the way, a canonical answer to a question that is not the last,
    whose explanation is delivered, appends one record to the session of
    the chat: the identifier of the current question, the choice, its
    points and the instant of the answer.  The score grows by these
    points and the index by one; nothing else in the session changes. *)
Theorem answer_is_recorded (updates : list (Update * Env)) (m : Message) (t : Z)
    (tp : Transport) (s : UserSession)
    (Hs : (run updates ∅).1 !! chat_id m = Some s)
    (Hcan : canonical (text m))
    (Hmore : current_question s + 1 < len Config.QUESTIONS)
    (Htp : tp ≠ Some 0%nat) :
  exists q p s',
    list_getitem Config.QUESTIONS (current_question s) = Ok q /\
    Config.POINTS !! text m = Some p /\
    store_of (handle_answer m t tp (run updates ∅).1) !! chat_id m = Some s' /\
    answers s' = answers s ++
      [{| question_id := q_id q; answer := text m; points := p; timestamp := t |}] /\
    score s' = score s + p /\
    current_question s' = current_question s + 1 /\
    user_id s' = user_id s /\ start_time s' = start_time s /\
    username s' = username s /\ first_name s' = first_name s.
Proof.
  pose proof (run_wf updates ∅ store_wf_empty _ _ Hs) as Hwf.
  pose proof (wf_index s Hwf) as Hi.
  destruct (answer_lookups_at (current_question s) (text m))
    as (q & p & risk & Hq & Hget & Hp & Hrisk); [lia|done|].
  exists q, p, (answered s q (text m) p t).
  split; [exact Hget|]. split; [exact Hp|].
  split; [|by repeat split].
  rewrite (handle_answer_any m t tp _ s q p risk Hs
             (canonical_not_cancel _ Hcan) Hget Hp Hrisk).
  cbv zeta. unfold Session.is_completed.
  rewrite bool_decide_eq_false_2 by (cbn; lia).
  destruct tp as [[|k]|]; [done| |]; unfold store_of at 1; cbn [fst snd];
    rewrite read_only_ask_question; apply lookup_insert_eq.
Qed.

(** Whatever the store and whatever the transport does, an answer never
    rewrites what a session has recorded: if the chat still has a
    session afterwards, its earlier answers are a prefix of its answers,
    at most one was added, and the user, the start time and the names
    are the same. *)
Theorem answers_are_append_only (m : Message) (t : Z) (tp : Transport)
    (sessions : gmap Z UserSession) (s s' : UserSession)
    (Hs : sessions !! chat_id m = Some s)
    (Hs' : store_of (handle_answer m t tp sessions) !! chat_id m = Some s') :
  answers s `prefix_of` answers s' /\
  (length (answers s') ≤ length (answers s) + 1)%nat /\
  user_id s' = user_id s /\ start_time s' = start_time s /\
  username s' = username s /\ first_name s' = first_name s.
Proof.
  destruct (handle_answer_store m t tp sessions s Hs)
    as [Heq | [Heq | (q & p & _ & _ & [Heq | Heq])]];
    rewrite Heq in Hs'.
  - rewrite Hs in Hs'. injection Hs' as <-. repeat split; [done|lia].
  - rewrite lookup_delete_eq in Hs'. discriminate Hs'.
  - rewrite lookup_insert_eq in Hs'. injection Hs' as <-.
    cbn. rewrite length_app. cbn. repeat split; [by apply prefix_app_r|lia].
  - rewrite lookup_insert_eq in Hs'. injection Hs' as <-.
    cbn. rewrite length_app. cbn. repeat split; [by apply prefix_app_r|lia].
Qed.

(** ** The begin button *)

(** In a store reached from the empty one by updates whose sends were
    delivered, the begin button of a chat that has a session, handled
    with a transport that delivers, acknowledges the press and sends the
    question the session is at, numbered from 1, and changes no
    session. *)
Theorem begin_button_asks_current_question (updates : list (Update * Env))
    (cb : CallbackQuery) (env : Env) (s : UserSession)
    (Hsent : delivered updates)
    (Htp : transport env = None)
    (Hdata : call_data cb = "start_check")
    (Hs : (run updates ∅).1 !! call_chat_id cb = Some s) :
  exists q,
    list_getitem Config.QUESTIONS (current_question s) = Ok q /\
    dispatch (Callback cb) env (run updates ∅).1 =
      (Ok tt, (run updates ∅).1,
       [AnswerCallbackQuery (call_id cb);
        SendMessage (call_chat_id cb)
          (QuestionText (current_question s + 1) (len Config.QUESTIONS) (q_text q))
          create_keyboard]).
Proof.
  destruct (run_ok updates ∅ Hsent store_ok_empty _ _ Hs) as [Hinv Hlt].
  pose proof (session_inv_bounds s Hinv) as Hb.
  destruct (list_getitem_in_range Config.QUESTIONS (current_question s))
    as (q & Hq & Hget); [lia|].
  exists q. split; [exact Hget|].
  unfold dispatch. rewrite Htp. cbv zeta. rewrite decide_True by done.
  unfold start_check_callback. run_bot. rewrite Hs.
  by rewrite (ask_question_eq _ _ s q Hs (proj1 Hb) Hq).
Qed.

(** ** Tokens *)

Lemma split_from_not_nil (sep : N) (s : Token.str) :
  forall cur : Token.str, Token.split_from sep cur s ≠ [].
Proof.
  induction s as [|c s IH]; intros cur; cbn [Token.split_from]; [done|].
  destruct (decide (c = sep)); [done|apply IH].
Qed.

Lemma split_from_one (sep : N) (s : Token.str) :
  forall (cur b : Token.str),
    Token.split_from sep cur s = [b] <-> (sep ∉ s) /\ b = cur ++ s.
Proof.
  induction s as [|c s IH]; intros cur b; cbn [Token.split_from].
  - rewrite app_nil_r. split.
    + intros [= <-]. split; [apply not_elem_of_nil|done].
    + by intros [_ ->].
  - destruct (decide (c = sep)) as [->|Hne].
    + split.
      * intros [= _ H]. by apply split_from_not_nil in H.
      * intros [Hnot _]. exfalso. apply Hnot. left.
    + rewrite IH, <- app_assoc. cbn [app]. rewrite not_elem_of_cons.
      split; intros [H1 H2]; (split; [|done]); [by split|tauto].
Qed.

Lemma split_from_two (sep : N) (s : Token.str) :
  forall (cur a b : Token.str),
    Token.split_from sep cur s = [a; b] <->
    exists x, s = x ++ sep :: b /\ (sep ∉ x) /\ (sep ∉ b) /\ a = cur ++ x.
Proof.
  induction s as [|c s IH]; intros cur a b; cbn [Token.split_from].
  - split; [discriminate|]. intros (x & Hx & _). by destruct x.
  - destruct (decide (c = sep)) as [->|Hne].
    + split.
      * intros [= <- H]. apply split_from_one in H as [Hnot ->].
        exists []. rewrite app_nil_r. repeat split; [apply not_elem_of_nil|done].
      * intros (x & Hx & Hnx & Hnb & ->). destruct x as [|y x].
        -- cbn in Hx. injection Hx as ->. rewrite app_nil_r. f_equal.
           by apply split_from_one.
        -- cbn in Hx. injection Hx as <- _. exfalso. apply Hnx. left.
    + rewrite IH. split.
      * intros (x & -> & Hnx & Hnb & ->). exists (c :: x).
        rewrite <- app_assoc. repeat split; [|done].
        apply not_elem_of_cons. by split.
      * intros (x & Hx & Hnx & Hnb & ->). destruct x as [|y x].
        -- cbn in Hx. injection Hx as -> _. done.
        -- cbn in Hx. injection Hx as <- ->. exists x.
           apply not_elem_of_cons in Hnx as [_ Hnx].
           rewrite <- app_assoc. by repeat split.
Qed.

(** [validate_token] accepts exactly the tokens made of a non-empty run
    of digits, one colon, and at least ten further characters, none of
    them a colon. *)
Theorem validate_token_accepts (isdigit_char : N -> bool) (token : Token.str) :
  Token.validate_token isdigit_char token = true <->
  exists a b,
    token = a ++ Token.COLON :: b /\
    (Token.COLON ∉ a) /\ (Token.COLON ∉ b) /\
    a ≠ [] /\ Forall (fun c => isdigit_char c = true) a /\
    (10 ≤ length b)%nat.
Proof.
  unfold Token.validate_token, Token.split. split.
  - intros H. destruct token as [|c0 token0]; [discriminate|].
    set (token := c0 :: token0) in *.
    destruct (Token.split_from Token.COLON [] token) as [|a [|b [|]]] eqn:Hsplit;
      try discriminate.
    apply split_from_two in Hsplit as (x & Hx & Hnx & Hnb & ->). cbn [app] in H.
    exists x, b.
    destruct (Token.isdigit isdigit_char x) eqn:Hd; [|discriminate]. cbn [negb] in H.
    destruct (decide (length b < 10)%nat); [discriminate|].
    unfold Token.isdigit in Hd. destruct x as [|y x]; [discriminate|].
    repeat split; try done; [|lia].
    apply Forall_forall. intros d Hd'.
    rewrite forallb_forall in Hd. apply Hd. by apply list_elem_of_In.
  - intros (a & b & -> & Hna & Hnb & Hne & Hdig & Hlen).
    assert (Hsplit : Token.split_from Token.COLON [] (a ++ Token.COLON :: b) = [a; b]).
    { apply split_from_two. by exists a. }
    rewrite Hsplit. destruct a as [|y a]; [done|]. cbn [app].
    assert (Hd : Token.isdigit isdigit_char (y :: a) = true).
    { unfold Token.isdigit. apply forallb_forall. intros d Hd.
      rewrite Forall_forall in Hdig. apply Hdig. by apply list_elem_of_In. }
    rewrite Hd. cbn [negb]. by rewrite decide_False by lia.
Qed.

Lemma validate_token_guard (isdigit_char : N -> bool) (token : Token.str) :
  negb (bool_decide (token = [])) && Token.validate_token isdigit_char token =
  Token.validate_token isdigit_char token.
Proof. by destruct token. Qed.

(** [load_token] asks its sources in order and stops at the first that
    yields a token [validate_token] accepts: it returns that token, and
    the sources after it are not called.  When no source yields such a
    token, every source has been called and the program exits with
    status 1. *)
Theorem load_token_first_valid (isdigit_char : N -> bool) (World : Type)
    (sources : list (Token.source World)) (w : World) :
  (exists pre src post token,
     sources = pre ++ src :: post /\
     Token.all_rejected isdigit_char World pre w /\
     (src (Token.after_sources World pre w)).1 = Some token /\
     Token.validate_token isdigit_char token = true /\
     Token.load_token_from isdigit_char World sources w =
       (inl token, (src (Token.after_sources World pre w)).2)) \/
  (Token.all_rejected isdigit_char World sources w /\
   Token.load_token_from isdigit_char World sources w =
     (inr (Token.SystemExit 1), Token.after_sources World sources w)).
Proof.
  revert w. induction sources as [|src sources IH]; intros w.
  - right. by split.
  - cbn [Token.load_token_from Token.all_rejected Token.after_sources].
    destruct (src w) as [[token|] w1] eqn:Hsrc; cbn [fst snd].
    + rewrite validate_token_guard.
      destruct (Token.validate_token isdigit_char token) eqn:Hv.
      * left. exists [], src, sources, token. cbn. rewrite Hsrc. by repeat split.
      * destruct (IH w1) as [(pre & s & post & tok & -> & Hrej & Hs & Hval & ->)|[Hrej ->]].
        -- left. exists (src :: pre), s, post, tok. cbn. rewrite Hsrc. cbn.
           by repeat split.
        -- right. by repeat split.
    + destruct (IH w1) as [(pre & s & post & tok & -> & Hrej & Hs & Hval & ->)|[Hrej ->]].
      * left. exists (src :: pre), s, post, tok. cbn. rewrite Hsrc. cbn.
        by repeat split.
      * right. by repeat split.
Qed.

(** ** The further statements on concrete inputs *)


Lemma effects_stay_in_chat_witness :
  7 ≠ chat_of (TextMessage (Demo.says "Никто")) /\
  sent_to 7 (trace_of (dispatch (TextMessage (Demo.says "Никто"))
                         (Demo.at_time 5000000) Demo.one_session)) = [] /\
  forall e,
    e ∈ trace_of (dispatch (TextMessage (Demo.says "Никто"))
                    (Demo.at_time 5000000) Demo.one_session) ->
    (forall s, e ≠ SessionWrite 7 s) /\ e ≠ SessionPop 7.
Proof.
  assert (Hne : 7 ≠ chat_of (TextMessage (Demo.says "Никто"))) by (cbn; lia).
  split; [exact Hne|].
  apply (effects_stay_in_chat (TextMessage (Demo.says "Никто"))
           (Demo.at_time 5000000) Demo.one_session 7 Hne).
Defined.

Lemma other_updates_keep_store_witness :
  is_start (Callback Sample.begin_press) = false /\
  is_answer (Callback Sample.begin_press) = false /\
  store_of (dispatch (Callback Sample.begin_press) (Demo.at_time 5000000)
              Demo.one_session) = Demo.one_session.
Proof.
  split; [reflexivity|]. split; [reflexivity|].
  apply (other_updates_keep_store (Callback Sample.begin_press)
           (Demo.at_time 5000000) Demo.one_session); reflexivity.
Defined.

Lemma only_start_creates_session_witness :
  is_start (TextMessage (Demo.says "Никто")) = false /\
  (∅ : gmap Z UserSession) !! 42 = None /\
  store_of (dispatch (TextMessage (Demo.says "Никто")) (Demo.at_time 5000000) ∅)
    !! 42 = None.
Proof.
  split; [reflexivity|]. split; [reflexivity|].
  apply (only_start_creates_session (TextMessage (Demo.says "Никто"))
           (Demo.at_time 5000000) ∅ 42); reflexivity.
Defined.

Lemma reachable_dispatch_returns_witness :
  delivered Demo.four_answers /\
  (result_of (dispatch (TextMessage (Demo.says "Мои контакты"))
                (Edge.failing_after 1 5000000) (run Demo.four_answers ∅).1) = Ok tt \/
   result_of (dispatch (TextMessage (Demo.says "Мои контакты"))
                (Edge.failing_after 1 5000000) (run Demo.four_answers ∅).1)
     = Raise ApiTelegramException) /\
  (transport (Edge.failing_after 1 5000000) = None ->
   result_of (dispatch (TextMessage (Demo.says "Мои контакты"))
                (Edge.failing_after 1 5000000) (run Demo.four_answers ∅).1) = Ok tt).
Proof.
  assert (Hd : delivered Demo.four_answers) by repeat constructor.
  split; [exact Hd|].
  apply (reachable_dispatch_returns Demo.four_answers
           (TextMessage (Demo.says "Мои контакты")) (Edge.failing_after 1 5000000) Hd).
Defined.

Lemma stored_score_bounds_witness :
  (run Demo.four_answers ∅).1 !! 42 = Some Demo.session_after_four /\
  delivered Demo.four_answers /\
  0 <= score Demo.session_after_four
    <= 2 * len (answers Demo.session_after_four) /\
  score Demo.session_after_four <= 2 * current_question Demo.session_after_four /\
  score Demo.session_after_four <= 8.
Proof.
  assert (Hs : (run Demo.four_answers ∅).1 !! 42 = Some Demo.session_after_four)
    by (vm_compute; reflexivity).
  assert (Hd : delivered Demo.four_answers) by repeat constructor.
  destruct (stored_score_bounds Demo.four_answers 42 Demo.session_after_four Hs)
    as (Hany & Hdel).
  split; [exact Hs|]. split; [exact Hd|]. split; [exact Hany|]. exact (Hdel Hd).
Defined.

Lemma count_answers_tally_witness :
  count_answers (answers Demo.session_after_four) answers_count0 =
    Ok (list_to_map [("Все", 2); ("Мои контакты", 1); ("Никто", 1)]) /\
  (list_to_map [("Все", 2); ("Мои контакты", 1); ("Никто", 1)] : gmap string Z)
    !! "Все" =
  (fun n => n + times_chosen "Все" (answers Demo.session_after_four))
    <$> answers_count0 !! "Все".
Proof.
  split; [vm_compute; reflexivity|].
  apply (count_answers_tally (answers Demo.session_after_four) answers_count0
           (list_to_map [("Все", 2); ("Мои контакты", 1); ("Никто", 1)]) "Все").
  vm_compute; reflexivity.
Defined.

Lemma sent_report_level_witness :
  ReportText Sample.report ∈ sent_to 42 (run Sample.whole_quiz ∅).2 /\
  0 <= r_score Sample.report <= 10 /\
  Config.LEVELS !! r_score Sample.report = Some (r_level Sample.report).
Proof.
  assert (Hsent : ReportText Sample.report ∈ sent_to 42 (run Sample.whole_quiz ∅).2).
  { apply list_elem_of_lookup. exists 10%nat. vm_compute. reflexivity. }
  split; [exact Hsent|].
  apply (sent_report_level Sample.whole_quiz 42 Sample.report Hsent).
Defined.

Lemma sent_report_tally_witness :
  ReportText Sample.report ∈ sent_to 42 (run Sample.whole_quiz ∅).2 /\
  exists n0 n1 n2,
    r_answers_count Sample.report !! "Все" = Some n0 /\
    r_answers_count Sample.report !! "Мои контакты" = Some n1 /\
    r_answers_count Sample.report !! "Никто" = Some n2 /\
    0 <= n0 /\ 0 <= n1 /\ 0 <= n2 /\
    n0 + n1 + n2 = len Config.QUESTIONS /\
    r_score Sample.report = n1 + 2 * n2.
Proof.
  assert (Hsent : ReportText Sample.report ∈ sent_to 42 (run Sample.whole_quiz ∅).2).
  { apply list_elem_of_lookup. exists 10%nat. vm_compute. reflexivity. }
  split; [exact Hsent|].
  apply (sent_report_tally Sample.whole_quiz 42 Sample.report Hsent).
Defined.

Lemma sent_report_weak_points_witness :
  ReportText Sample.report ∈ sent_to 42 (run Sample.whole_quiz ∅).2 /\
  Forall (fun qa => points qa.2 < 2 /\ question_id qa.2 = q_id qa.1 /\
                    qa.1 ∈ Config.QUESTIONS)
    (r_weak_points Sample.report) /\
  (r_weak_points Sample.report).*1 `sublist_of` Config.QUESTIONS /\
  NoDup (r_weak_points Sample.report).*1 /\
  (length (r_weak_points Sample.report) ≤ length Config.QUESTIONS)%nat /\
  (r_weak_points Sample.report = [] <-> r_score Sample.report = 10).
Proof.
  assert (Hsent : ReportText Sample.report ∈ sent_to 42 (run Sample.whole_quiz ∅).2).
  { apply list_elem_of_lookup. exists 10%nat. vm_compute. reflexivity. }
  split; [exact Hsent|].
  apply (sent_report_weak_points Sample.whole_quiz 42 Sample.report Hsent).
Defined.

Lemma percentile_of_stored_session_witness :
  Demo.one_session !! 42 = Some Demo.session_after_four /\
  (size (filter (fun kv : Z * UserSession =>
                   (score kv.2 < score Demo.session_after_four)%Z)
           Demo.one_session) < size Demo.one_session)%nat /\
  calculate_percentile {[ 42 := Demo.session_after_four ]}
    (score Demo.session_after_four) = Ok (S754_zero false).
Proof.
  split; [vm_compute; reflexivity|].
  apply (percentile_of_stored_session Demo.one_session 42 Demo.session_after_four).
  vm_compute; reflexivity.
Defined.


Lemma answer_is_recorded_witness :
  (run Sample.one_answer ∅).1 !! chat_id (Demo.says "Никто") =
    Some Sample.session_after_one /\
  canonical (text (Demo.says "Никто")) /\
  current_question Sample.session_after_one + 1 < len Config.QUESTIONS /\
  (None : Transport) ≠ Some 0%nat /\
  exists q p s',
    list_getitem Config.QUESTIONS (current_question Sample.session_after_one) = Ok q /\
    Config.POINTS !! text (Demo.says "Никто") = Some p /\
    store_of (handle_answer (Demo.says "Никто") 2000000 None (run Sample.one_answer ∅).1)
      !! chat_id (Demo.says "Никто") = Some s' /\
    answers s' = answers Sample.session_after_one ++
      [{| question_id := q_id q; answer := text (Demo.says "Никто"); points := p;
          timestamp := 2000000 |}] /\
    score s' = score Sample.session_after_one + p /\
    current_question s' = current_question Sample.session_after_one + 1 /\
    user_id s' = user_id Sample.session_after_one /\
    start_time s' = start_time Sample.session_after_one /\
    username s' = username Sample.session_after_one /\
    first_name s' = first_name Sample.session_after_one.
Proof.
  split; [vm_compute; reflexivity|].
  split; [do 2 apply list_elem_of_further; apply list_elem_of_here|].
  split; [reflexivity|].
  split; [discriminate|].
  apply (answer_is_recorded Sample.one_answer (Demo.says "Никто") 2000000 None
           Sample.session_after_one).
  - vm_compute; reflexivity.
  - do 2 apply list_elem_of_further; apply list_elem_of_here.
  - reflexivity.
  - discriminate.
Defined.

Lemma answers_are_append_only_witness :
  ({[ 42 := Sample.session_after_one ]} : gmap Z UserSession)
    !! chat_id (Demo.says "Никто") = Some Sample.session_after_one /\
  store_of (handle_answer (Demo.says "Никто") 2000000 None
              {[ 42 := Sample.session_after_one ]})
    !! chat_id (Demo.says "Никто") = Some Sample.session_after_two /\
  answers Sample.session_after_one `prefix_of` answers Sample.session_after_two /\
  (length (answers Sample.session_after_two)
     ≤ length (answers Sample.session_after_one) + 1)%nat /\
  user_id Sample.session_after_two = user_id Sample.session_after_one /\
  start_time Sample.session_after_two = start_time Sample.session_after_one /\
  username Sample.session_after_two = username Sample.session_after_one /\
  first_name Sample.session_after_two = first_name Sample.session_after_one.
Proof.
  split; [vm_compute; reflexivity|].
  split; [vm_compute; reflexivity|].
  apply (answers_are_append_only (Demo.says "Никто") 2000000 None
           {[ 42 := Sample.session_after_one ]}
           Sample.session_after_one Sample.session_after_two).
  - vm_compute; reflexivity.
  - vm_compute; reflexivity.
Defined.

Lemma begin_button_asks_current_question_witness :
  delivered Demo.four_answers /\
  transport (Demo.at_time 5000000) = None /\
  call_data Sample.begin_press = "start_check" /\
  (run Demo.four_answers ∅).1 !! call_chat_id Sample.begin_press =
    Some Demo.session_after_four /\
  exists q,
    list_getitem Config.QUESTIONS (current_question Demo.session_after_four) = Ok q /\
    dispatch (Callback Sample.begin_press) (Demo.at_time 5000000)
        (run Demo.four_answers ∅).1 =
      (Ok tt, (run Demo.four_answers ∅).1,
       [AnswerCallbackQuery (call_id Sample.begin_press);
        SendMessage (call_chat_id Sample.begin_press)
          (QuestionText (current_question Demo.session_after_four + 1)
             (len Config.QUESTIONS) (q_text q))
          create_keyboard]).
Proof.
  split; [repeat constructor|].
  split; [reflexivity|].
  split; [reflexivity|].
  split; [vm_compute; reflexivity|].
  apply (begin_button_asks_current_question Demo.four_answers Sample.begin_press
           (Demo.at_time 5000000) Demo.session_after_four).
  - repeat constructor.
  - reflexivity.
  - reflexivity.
  - vm_compute; reflexivity.
Defined.

(** The sample token is accepted when the digits are those of ASCII. *)
Lemma sample_token_accepted :
  Token.validate_token Token.ascii_digit Sample.token = true.
Proof. reflexivity. Qed.
